(** * Two integration adapters of langchain: the Kuzu graph QA chain and the
    Writer completion wrapper

  Shallow embedding of
    - [langchain/llms/writer.py]            (class [Writer])
    - [langchain/chains/graph_qa/kuzu.py]   (class [KuzuQAChain])

  Python values are an inductive type, dicts are [gmap string _], an
  exception is a value of [Exn], and a method that talks to a collaborator
  is a computation in a state-and-error monad whose state carries the
  collaborators' world and the chronological trace of the calls made. *)

From Stdlib Require Import String Ascii List ZArith QArith Bool Lia.
From stdpp Require Import base option gmap strings list fin_maps.

Set Warnings "-register-all".

(** ** Python values and exceptions *)

Module Py.

(** The values that flow through the two adapters.  A float is carried as
    the rational its literal denotes: the code never computes with one, it
    only stores and forwards it. *)
Inductive Val : Type :=
| VNone
| VBool (b : bool)
| VInt (z : Z)
| VFloat (q : Q)
| VStr (s : string)
| VList (l : list Val).

(** One entry of pydantic's [ValidationError]: the location (a field name,
    or ["__root__"] for a root validator) and the message. *)
Record ErrorWrapper : Type := { loc : string; msg : string }.

Inductive Exn : Type :=
| KeyError (key : string)
| ValueError (message : string)
| ValidationError (errors : list ErrorWrapper)
| Raised (type_name : string) (message : string).

(** [None] lifted through an [Optional[...]] field. *)
Definition opt {A} (inj : A -> Val) (o : option A) : Val :=
  match o with
  | Some a => inj a
  | None => VNone
  end.

(** [f"{x}"] for an [Optional[str]]: the string itself, or the text
    [None]. *)
Definition format_opt_str (o : option string) : string :=
  match o with
  | Some s => s
  | None => "None"
  end.

End Py.

Export Py.

(** ** Effects: collaborators, trace and the monad *)

(** What leaves the adapters, in the order it leaves. *)
Inductive Event : Type :=
| EvPost (url : string) (headers : gmap string string) (json : gmap string Val)
| EvGetSchema
| EvRun (inputs : gmap string Val)
| EvOnText (text : string)
| EvQuery (statement : string)
| EvCall (inputs : gmap string Val).

Section Effects.

(** The state of everything outside the adapters (remote services, the
    graph database, the language model). *)
Context {World : Type}.

(** An operation of a collaborator: it may raise, and it may change the
    world. *)
Definition Op (A : Type) : Type := World -> (Exn + A) * World.

Record State : Type := { world : World; trace : list Event }.

Definition M (A : Type) : Type := State -> (Exn + A) * State.

Definition ret {A} (a : A) : M A := fun st => (inr a, st).

Definition raise {A} (e : Exn) : M A := fun st => (inl e, st).

Definition bind {A B} (m : M A) (k : A -> M B) : M B :=
  fun st =>
    match m st with
    | (inr a, st') => k a st'
    | (inl e, st') => (inl e, st')
    end.

(** Record the call, then let the collaborator act on the world. *)
Definition perform {A} (ev : Event) (op : Op A) : M A :=
  fun st =>
    let '(r, w) := op (world st) in
    (r, {| world := w; trace := trace st ++ [ev] |}).

(** A notification to the run manager: observed, never answered. *)
Definition emit (ev : Event) : M unit :=
  fun st => (inr tt, {| world := world st; trace := trace st ++ [ev] |}).

Definition lift_result {A} (r : Exn + A) : M A :=
  match r with
  | inr a => ret a
  | inl e => raise e
  end.

Definition start (w : World) : State := {| world := w; trace := [] |}.

End Effects.

Arguments Op : clear implicits.
Arguments State : clear implicits.
Arguments M : clear implicits.

Notation "'let*' x ':=' m 'in' k" := (bind m (fun x => k))
  (at level 10, x name, m at level 100, k at level 200).
Notation "m ';;' k" := (bind m (fun _ => k))
  (at level 100, k at level 200, right associativity).

(** ** The Writer completion wrapper ([langchain/llms/writer.py]) *)

Module Writer.

(** What [requests.post] hands back: [requests] returns a response for
    every status the server answers with, and raises only when no answer
    was obtained. *)
Record Response : Type := { status_code : Z; text : string }.

(** The declared fields of [class Writer(LLM)]. *)
Record t : Type := {
  writer_org_id : option string;
  model_id : string;
  min_tokens : option Z;
  max_tokens : option Z;
  temperature : option Q;
  top_p : option Q;
  stop : option (list string);
  presence_penalty : option Q;
  repetition_penalty : option Q;
  best_of : option Z;
  logprobs : bool;
  n : option Z;
  writer_api_key : option string;
  base_url : option string
}.

Definition VStrList (l : list string) : Val := VList (map VStr l).

(** *** Construction

    [Writer] is a pydantic (v1) model: constructing one validates the
    keyword arguments against the declared fields, applies
    [Config.extra = Extra.forbid], runs the root validator
    [validate_environment], and raises [ValidationError] when any error was
    collected. *)

(** A declared field: its name, the validator of its annotation and its
    default. *)
Record Field : Type := {
  name : string;
  validate : Val -> option Val;
  default : Val
}.

Definition optional (v : Val -> option Val) (x : Val) : option Val :=
  match x with
  | VNone => Some VNone
  | _ => v x
  end.

Definition str_validator (x : Val) : option Val :=
  match x with VStr _ => Some x | _ => None end.

Definition int_validator (x : Val) : option Val :=
  match x with VInt _ => Some x | _ => None end.

Definition float_validator (x : Val) : option Val :=
  match x with
  | VFloat _ => Some x
  | VInt z => Some (VFloat (inject_Z z))
  | _ => None
  end.

Definition bool_validator (x : Val) : option Val :=
  match x with VBool _ => Some x | _ => None end.

Definition is_str (x : Val) : bool :=
  match x with VStr _ => true | _ => false end.

Definition str_list_validator (x : Val) : option Val :=
  match x with
  | VList l => if forallb is_str l then Some x else None
  | _ => None
  end.

(** The fields declared in the class body, in order.  A value already of
    the annotated type is taken as it is and an int is accepted for a
    float; the further conversions pydantic attempts (a numeric string for
    a number and the like) are not followed: such a value is a field
    error here. *)
Definition own_fields : list Field :=
  [ {| name := "writer_org_id"; validate := optional str_validator; default := VNone |};
    {| name := "model_id"; validate := str_validator; default := VStr "palmyra-instruct" |};
    {| name := "min_tokens"; validate := optional int_validator; default := VNone |};
    {| name := "max_tokens"; validate := optional int_validator; default := VNone |};
    {| name := "temperature"; validate := optional float_validator; default := VNone |};
    {| name := "top_p"; validate := optional float_validator; default := VNone |};
    {| name := "stop"; validate := optional str_list_validator; default := VNone |};
    {| name := "presence_penalty"; validate := optional float_validator; default := VNone |};
    {| name := "repetition_penalty"; validate := optional float_validator; default := VNone |};
    {| name := "best_of"; validate := optional int_validator; default := VNone |};
    {| name := "logprobs"; validate := bool_validator; default := VBool false |};
    {| name := "n"; validate := optional int_validator; default := VNone |};
    {| name := "writer_api_key"; validate := optional str_validator; default := VNone |};
    {| name := "base_url"; validate := optional str_validator; default := VNone |} ].

(** [class Config: extra = Extra.forbid] *)
Inductive Extra : Type := Extra_allow | Extra_ignore | Extra_forbid.

Definition Config_extra : Extra := Extra_forbid.

(** Modelled from the spec: [get_from_dict_or_env] of [langchain.utils] is
    imported by [writer.py] and is not among the sources.  The spec has a
    credential resolved from the explicit construction arguments or from the
    named environment entry, and the resolution fail when neither source
    supplies a value.  An argument that is [None] supplies nothing. *)
Definition get_from_dict_or_env (environ : gmap string string)
    (data : gmap string Val) (key env_key : string) : Exn + Val :=
  let from_env :=
    match environ !! env_key with
    | Some s => inr (VStr s)
    | None =>
        inl (ValueError ("Did not find " +:+ key +:+ " in the arguments or in "
                         +:+ env_key))
    end in
  match data !! key with
  | Some VNone | None => from_env
  | Some v => inr v
  end.

(** [Writer.validate_environment], the root validator. *)
Definition validate_environment (environ : gmap string string)
    (values : gmap string Val) : Exn + gmap string Val :=
  match get_from_dict_or_env environ values "writer_api_key" "WRITER_API_KEY" with
  | inl e => inl e
  | inr writer_api_key =>
      let values := <[ "writer_api_key" := writer_api_key ]> values in
      match get_from_dict_or_env environ values "writer_org_id" "WRITER_ORG_ID" with
      | inl e => inl e
      | inr writer_org_id =>
          let values := <[ "writer_org_id" := writer_org_id ]> values in
          inr values
      end
  end.

(** One round of pydantic's loop over the declared fields: a missing field
    takes its default, a supplied one goes through its validator. *)
Definition validate_field (input : gmap string Val)
    (acc : gmap string Val * list ErrorWrapper) (f : Field)
    : gmap string Val * list ErrorWrapper :=
  let '(values, errors) := acc in
  match input !! name f with
  | None => (<[ name f := default f ]> values, errors)
  | Some v =>
      match validate f v with
      | Some v' => (<[ name f := v' ]> values, errors)
      | None =>
          (values, errors ++ [ {| loc := name f; msg := "value is not valid" |} ])
      end
  end.

Definition validate_fields (fields : list Field) (input : gmap string Val)
    : gmap string Val * list ErrorWrapper :=
  foldl (validate_field input) (∅, []) fields.

Fixpoint insert_sorted (k : string) (l : list string) : list string :=
  match l with
  | [] => [k]
  | k' :: l' => if String.leb k k' then k :: l else k' :: insert_sorted k l'
  end.

(** [sorted(names)] *)
Definition sorted (l : list string) : list string := foldr insert_sorted [] l.

Definition is_declared (fields : list Field) (k : string) : bool :=
  existsb (String.eqb k) (map name fields).

(** The supplied names that no field declares, as pydantic reports them. *)
Definition extra_names (fields : list Field) (input : gmap string Val)
    : list string :=
  sorted (List.filter (fun k => negb (is_declared fields k))
            (elements (dom input))).

Definition extra_errors (extra : Extra) (names : list string)
    : list ErrorWrapper :=
  match extra with
  | Extra_forbid =>
      map (fun k => {| loc := k; msg := "extra fields not permitted" |}) names
  | _ => []
  end.

(** pydantic's [validate_model]: fields, then extras, then the root
    validator (which runs whether or not errors were collected, and whose
    [ValueError] becomes one more collected error). *)
Definition validate_model (fields : list Field) (environ : gmap string string)
    (input : gmap string Val) : Exn + gmap string Val :=
  let '(values, errors) := validate_fields fields input in
  let errors := errors ++ extra_errors Config_extra (extra_names fields input) in
  match validate_environment environ values with
  | inr values' =>
      match errors with
      | [] => inr values'
      | _ => inl (ValidationError errors)
      end
  | inl (ValueError m) =>
      inl (ValidationError (errors ++ [ {| loc := "__root__"; msg := m |} ]))
  | inl e => inl e
  end.

Definition get_str (values : gmap string Val) (k : string) : option string :=
  match values !! k with Some (VStr s) => Some s | _ => None end.

Definition get_int (values : gmap string Val) (k : string) : option Z :=
  match values !! k with Some (VInt z) => Some z | _ => None end.

Definition get_float (values : gmap string Val) (k : string) : option Q :=
  match values !! k with Some (VFloat q) => Some q | _ => None end.

Definition get_bool (values : gmap string Val) (k : string) : option bool :=
  match values !! k with Some (VBool b) => Some b | _ => None end.

Definition unstr (x : Val) : string :=
  match x with VStr s => s | _ => EmptyString end.

Definition get_str_list (values : gmap string Val) (k : string)
    : option (list string) :=
  match values !! k with Some (VList l) => Some (map unstr l) | _ => None end.

(** The object holding the validated values. *)
Definition of_values (values : gmap string Val) : t :=
  {| writer_org_id := get_str values "writer_org_id";
     model_id := option.default "palmyra-instruct" (get_str values "model_id");
     min_tokens := get_int values "min_tokens";
     max_tokens := get_int values "max_tokens";
     temperature := get_float values "temperature";
     top_p := get_float values "top_p";
     stop := get_str_list values "stop";
     presence_penalty := get_float values "presence_penalty";
     repetition_penalty := get_float values "repetition_penalty";
     best_of := get_int values "best_of";
     logprobs := option.default false (get_bool values "logprobs");
     n := get_int values "n";
     writer_api_key := get_str values "writer_api_key";
     base_url := get_str values "base_url" |}.

Section Construction.

Context {World : Type}.

(** [os.environ], read from the process's surroundings. *)
Variable os_environ : World -> gmap string string.

(** The fields [Writer] inherits from [LLM] and its bases; those classes are
    not among the sources. *)
Variable base_fields : list Field.

Definition fields : list Field := base_fields ++ own_fields.

(** The constructor, called with keyword arguments [kwargs]. *)
Definition init (kwargs : gmap string Val) : M World t :=
  fun st =>
    let environ := os_environ (world st) in
    match validate_model fields environ kwargs with
    | inr values => (inr (of_values values), st)
    | inl e => (inl e, st)
    end.

End Construction.


(** [Writer._default_params] *)
Definition _default_params (self : t) : gmap string Val :=
  {[ "minTokens" := opt VInt (min_tokens self);
     "maxTokens" := opt VInt (max_tokens self);
     "temperature" := opt VFloat (temperature self);
     "topP" := opt VFloat (top_p self);
     "stop" := opt VStrList (stop self);
     "presencePenalty" := opt VFloat (presence_penalty self);
     "repetitionPenalty" := opt VFloat (repetition_penalty self);
     "bestOf" := opt VInt (best_of self);
     "logprobs" := VBool (logprobs self);
     "n" := opt VInt (n self) ]}.

(** [Writer._identifying_params]: [{**{...}, **self._default_params}]; the
    later mapping wins, which is the left operand of stdpp's union. *)
Definition _identifying_params (self : t) : gmap string Val :=
  _default_params self ∪
  {[ "model_id" := VStr (model_id self);
     "writer_org_id" := opt VStr (writer_org_id self) ]}.

Definition _llm_type (self : t) : string := "writer".

(** Modelled from the spec: [enforce_stop_tokens] of [langchain.llms.utils]
    is imported by [writer.py] and is not among the sources.  The spec has it
    scan the text left to right for the earliest occurrence of any listed
    stop sequence and cut the text immediately before it, and return the
    text as it is when none occurs. *)
Fixpoint enforce_stop_tokens (text : string) (stop : list string) : string :=
  if existsb (fun s => String.prefix s text) stop then EmptyString
  else
    match text with
    | EmptyString => EmptyString
    | String c rest => String c (enforce_stop_tokens rest stop)
    end.

Section Call.

Context {World : Type}.

(** [requests.post(url=..., headers=..., json=...)] *)
Variable requests_post :
  string -> gmap string string -> gmap string Val -> Op World Response.

(** [Writer._call]; [run_manager] is accepted and never used. *)
Definition _call (self : t) (prompt : string) (stop : option (list string))
    (kwargs : gmap string Val) : M World string :=
  let base_url :=
    match base_url self with
    | Some u => u
    | None =>
        "https://enterprise-api.writer.com/llm"
        +:+ "/organization/" +:+ format_opt_str (writer_org_id self)
        +:+ "/model/" +:+ model_id self +:+ "/completions"
    end in
  let params := kwargs ∪ _default_params self in
  let headers : gmap string string :=
    {[ "Authorization" := format_opt_str (writer_api_key self);
       "Content-Type" := "application/json";
       "Accept" := "application/json" ]} in
  let json := params ∪ {[ "prompt" := VStr prompt ]} in
  let* response := perform (EvPost base_url headers json)
                     (requests_post base_url headers json) in
  let text := text response in
  match stop with
  | Some stop => ret (enforce_stop_tokens text stop)
  | None => ret text
  end.

End Call.

End Writer.

(** ** The Kuzu graph QA chain ([langchain/chains/graph_qa/kuzu.py]) *)

(** [d[k]] on a dict. *)
Definition getitem (d : gmap string Val) (k : string) : Exn + Val :=
  match d !! k with
  | Some v => inr v
  | None => inl (KeyError k)
  end.

(** The graph collaborator, [langchain.graphs.kuzu_graph.KuzuGraph]:
    [get_schema] is read as an attribute, [query] is called with the
    statement. *)
Module KuzuGraph.

Record t (World : Type) : Type := {
  get_schema : Op World string;
  query : string -> Op World Val
}.

Arguments get_schema {World}.
Arguments query {World}.

End KuzuGraph.

(** The completion collaborator, [langchain.chains.llm.LLMChain]: [run]
    gives back the single output, calling the chain gives back the mapping of
    its outputs, among them the one named [output_key]. *)
Module LLMChain.

Record t (World : Type) : Type := {
  run : gmap string Val -> Op World string;
  call : gmap string Val -> Op World (gmap string Val);
  output_key : string
}.

Arguments run {World}.
Arguments call {World}.
Arguments output_key {World}.

End LLMChain.

Module KuzuQAChain.

Record t (World : Type) : Type := {
  graph : KuzuGraph.t World;
  cypher_generation_chain : LLMChain.t World;
  qa_chain : LLMChain.t World;
  input_key : string;
  output_key : string;
  verbose : bool
}.

Arguments graph {World}.
Arguments cypher_generation_chain {World}.
Arguments qa_chain {World}.
Arguments input_key {World}.
Arguments output_key {World}.
Arguments verbose {World}.

(** The class-body defaults of the two key fields. *)
Definition default_input_key : string := "query".
Definition default_output_key : string := "result".

Section Chain.

Context {World : Type}.

(** Python's [str] on a value. *)
Variable str : Val -> string.

(** [KuzuQAChain.input_keys] *)
Definition input_keys (self : t World) : list string := [input_key self].

(** [KuzuQAChain.output_keys] *)
Definition output_keys (self : t World) : list string :=
  let _output_keys := [output_key self] in
  _output_keys.

(** [KuzuQAChain._call].  The run manager (the given one or the no-op one)
    receives the four [on_text] notifications; the child callbacks it hands
    out travel with the two chain calls and take no part in what they are
    given or what they return. *)
Definition _call (self : t World) (inputs : gmap string Val)
    : M World (gmap string Val) :=
  let* question := lift_result (getitem inputs (input_key self)) in
  let* schema := perform EvGetSchema (KuzuGraph.get_schema (graph self)) in
  let gen_inputs : gmap string Val :=
    {[ "question" := question; "schema" := VStr schema ]} in
  let* generated_cypher :=
    perform (EvRun gen_inputs)
      (LLMChain.run (cypher_generation_chain self) gen_inputs) in
  emit (EvOnText "Generated Cypher:") ;;
  emit (EvOnText generated_cypher) ;;
  let* context :=
    perform (EvQuery generated_cypher)
      (KuzuGraph.query (graph self) generated_cypher) in
  emit (EvOnText "Full Context:") ;;
  emit (EvOnText (str context)) ;;
  let qa_inputs : gmap string Val :=
    {[ "question" := question; "context" := context ]} in
  let* result :=
    perform (EvCall qa_inputs) (LLMChain.call (qa_chain self) qa_inputs) in
  let* answer :=
    lift_result (getitem result (LLMChain.output_key (qa_chain self))) in
  ret ({[ output_key self := answer ]} : gmap string Val).

End Chain.

End KuzuQAChain.

(** ** Reading a trace *)

(** The requests posted, oldest first. *)
Definition posted (tr : list Event)
    : list (string * gmap string string * gmap string Val) :=
  omap (fun ev =>
          match ev with
          | EvPost url headers json => Some (url, headers, json)
          | _ => None
          end) tr.

Definition posted_urls (tr : list Event) : list string :=
  map (fun r => fst (fst r)) (posted tr).

Definition posted_json (tr : list Event) : list (gmap string Val) :=
  map snd (posted tr).

(** What the query-generation chain was run with, oldest first. *)
Definition run_inputs (tr : list Event) : list (gmap string Val) :=
  omap (fun ev => match ev with EvRun i => Some i | _ => None end) tr.

(** What the answer chain was called with, oldest first. *)
Definition call_inputs (tr : list Event) : list (gmap string Val) :=
  omap (fun ev => match ev with EvCall i => Some i | _ => None end) tr.

(** The statements handed to the graph, oldest first. *)
Definition queries (tr : list Event) : list string :=
  omap (fun ev => match ev with EvQuery s => Some s | _ => None end) tr.

(** ** Occurrences of a stop sequence *)

(** [s] occurs in [text] at index [k]: [text[k : k + len(s)] == s]. *)
Definition occurs_at (s text : string) (k : nat) : Prop :=
  ∃ pre post, text = pre +:+ s +:+ post ∧ String.length pre = k.

(** [r] is [text] cut immediately before the earliest occurrence of any
    sequence of [stops], or [text] itself when none of them occurs. *)
Definition cut_before_earliest (text : string) (stops : list string)
    (r : string) : Prop :=
  (∃ k s, s ∈ stops ∧ occurs_at s text k
          ∧ (∀ j s', s' ∈ stops → occurs_at s' text j → k ≤ j)
          ∧ r = substring 0 k text)
  ∨ ((∀ s k, s ∈ stops → ¬ occurs_at s text k) ∧ r = text).

(** ** Concrete collaborators, for evaluating the adapters *)

Module Demo.

(** A world that is nothing but the process environment. *)
Definition World : Type := gmap string string.

Definition os_environ (w : World) : gmap string string := w.

(** A server that answers every request with the same response. *)
Definition answering (r : Writer.Response)
    : string -> gmap string string -> gmap string Val -> Op World Writer.Response :=
  fun _ _ _ w => (inr r, w).

(** A transport that never gets an answer. *)
Definition unreachable
    : string -> gmap string string -> gmap string Val -> Op World Writer.Response :=
  fun _ _ _ w => (inl (Raised "ConnectionError" "no route to host"), w).

(** An adapter with temperature 0.5 and n 1 and nothing else set. *)
Definition writer (base_url : option string) : Writer.t :=
  {| Writer.writer_org_id := Some "org1";
     Writer.model_id := "modelA";
     Writer.min_tokens := None;
     Writer.max_tokens := None;
     Writer.temperature := Some (1 # 2)%Q;
     Writer.top_p := None;
     Writer.stop := None;
     Writer.presence_penalty := None;
     Writer.repetition_penalty := None;
     Writer.best_of := None;
     Writer.logprobs := false;
     Writer.n := Some 1%Z;
     Writer.writer_api_key := Some "secret";
     Writer.base_url := base_url |}.

(** Two of the fields a Writer inherits. *)
Definition base_fields : list Writer.Field :=
  [ {| Writer.name := "cache";
       Writer.validate := Writer.optional Writer.bool_validator;
       Writer.default := VNone |};
    {| Writer.name := "verbose";
       Writer.validate := Writer.bool_validator;
       Writer.default := VBool false |} ].

(** A text with STOP1 at index 10 and STOP2 at index 20. *)
Definition stop_text : string := "0123456789STOP1abcdeSTOP2xyz".

(** [str] on the values the demo graph returns. *)
Definition str (v : Val) : string :=
  match v with
  | VStr s => s
  | _ => "<value>"
  end.

Definition graph (schema : string) (rows : Exn + Val) : KuzuGraph.t World :=
  {| KuzuGraph.get_schema := fun w => (inr schema, w);
     KuzuGraph.query := fun _ w => (rows, w) |}.

(** A chain that answers with a fixed text under its output key. *)
Definition chain (answer : string) : LLMChain.t World :=
  {| LLMChain.run := fun _ w => (inr answer, w);
     LLMChain.call := fun _ w => (inr {[ "text" := VStr answer ]}, w);
     LLMChain.output_key := "text" |}.

Definition qa (input_key output_key : string) (rows : Exn + Val)
    : KuzuQAChain.t World :=
  {| KuzuQAChain.graph := graph "Node(id)" rows;
     KuzuQAChain.cypher_generation_chain := chain "MATCH (n) RETURN n";
     KuzuQAChain.qa_chain := chain "forty-two";
     KuzuQAChain.input_key := input_key;
     KuzuQAChain.output_key := output_key;
     KuzuQAChain.verbose := false |}.

(** A graph whose schema cannot be read. *)
Definition graph_without_schema (e : Exn) : KuzuGraph.t World :=
  {| KuzuGraph.get_schema := fun w => (inl e, w);
     KuzuGraph.query := fun _ w => (inr VNone, w) |}.

(** A chain whose model fails. *)
Definition failing_chain (e : Exn) : LLMChain.t World :=
  {| LLMChain.run := fun _ w => (inl e, w);
     LLMChain.call := fun _ w => (inl e, w);
     LLMChain.output_key := "text" |}.

(** A chain that returns its output under another name than the one it
    declares. *)
Definition misnamed_chain (answer : string) : LLMChain.t World :=
  {| LLMChain.run := fun _ w => (inr answer, w);
     LLMChain.call := fun _ w => (inr {[ "output" := VStr answer ]}, w);
     LLMChain.output_key := "text" |}.

Definition qa_of (g : KuzuGraph.t World) (generation answering : LLMChain.t World)
    : KuzuQAChain.t World :=
  {| KuzuQAChain.graph := g;
     KuzuQAChain.cypher_generation_chain := generation;
     KuzuQAChain.qa_chain := answering;
     KuzuQAChain.input_key := "query";
     KuzuQAChain.output_key := "result";
     KuzuQAChain.verbose := true |}.

(** A transport that records in the world that it was used. *)
Definition counting (r : Writer.Response)
    : string -> gmap string string -> gmap string Val -> Op World Writer.Response :=
  fun url _ _ w => (inr r, <[ "last_url" := url ]> w).

(** Arguments for a construction that succeeds, the environment it runs
    in, and the adapter it yields. *)
Definition kwargs : gmap string Val :=
  {[ "writer_api_key" := VStr "k"; "max_tokens" := VInt 64;
     "temperature" := VInt 1 ]}.

Definition environ : World := {[ "WRITER_ORG_ID" := "o" ]}.

Definition constructed : Writer.t :=
  {| Writer.writer_org_id := Some "o";
     Writer.model_id := "palmyra-instruct";
     Writer.min_tokens := None;
     Writer.max_tokens := Some 64%Z;
     Writer.temperature := Some (inject_Z 1);
     Writer.top_p := None;
     Writer.stop := None;
     Writer.presence_penalty := None;
     Writer.repetition_penalty := None;
     Writer.best_of := None;
     Writer.logprobs := false;
     Writer.n := None;
     Writer.writer_api_key := Some "k";
     Writer.base_url := None |}.

End Demo.

(** ** Properties of the Writer wrapper *)

(** Lookups in a map written out key by key: split on which key it is. *)
Ltac by_keys :=
  rewrite ?lookup_union, ?lookup_insert, ?lookup_singleton, ?lookup_empty;
  repeat case_decide; subst; try done.

(** *** Stop sequences *)

Lemma prefix_occurs_at (s text : string) :
  String.prefix s text = true ↔ occurs_at s text 0.
Proof.
  split.
  - revert text. induction s as [| a s IH]; intros text H.
    + exists EmptyString, text. split; reflexivity.
    + destruct text as [| b text]; simpl in H; [discriminate |].
      destruct (ascii_dec a b) as [-> | _]; [| discriminate].
      destruct (IH _ H) as (pre & post & Heq & Hlen).
      destruct pre; [| discriminate]. simpl in Heq. subst text.
      exists EmptyString, post. split; reflexivity.
  - intros (pre & post & -> & Hlen).
    destruct pre; [| discriminate]. simpl. clear Hlen.
    induction s as [| a s IH]; simpl.
    + destruct post; reflexivity.
    + destruct (ascii_dec a a); [exact IH | congruence].
Qed.

Lemma occurs_at_succ (s : string) (c : ascii) (rest : string) (j : nat) :
  occurs_at s (String c rest) (S j) ↔ occurs_at s rest j.
Proof.
  split.
  - intros (pre & post & Heq & Hlen).
    destruct pre as [| c' pre]; [discriminate |].
    simpl in Heq, Hlen. injection Heq as -> ->.
    exists pre, post. split; [reflexivity | lia].
  - intros (pre & post & -> & Hlen).
    exists (String c pre), post. split; [reflexivity | simpl; lia].
Qed.

Lemma existsb_prefix_occurs (text : string) (stops : list string) :
  existsb (fun s => String.prefix s text) stops = true
  ↔ ∃ s, s ∈ stops ∧ occurs_at s text 0.
Proof.
  rewrite existsb_exists. split.
  - intros (s & Hin & Hp). exists s. split.
    + by apply list_elem_of_In.
    + by apply prefix_occurs_at.
  - intros (s & Hin & Ho). exists s. split.
    + by apply list_elem_of_In.
    + by apply prefix_occurs_at.
Qed.

Lemma substring_0_0 (text : string) : substring 0 0 text = EmptyString.
Proof. destruct text; reflexivity. Qed.

Lemma enforce_stop_tokens_unfold (text : string) (stops : list string) :
  Writer.enforce_stop_tokens text stops
  = if existsb (fun s => String.prefix s text) stops then EmptyString
    else match text with
         | EmptyString => EmptyString
         | String c rest => String c (Writer.enforce_stop_tokens rest stops)
         end.
Proof. destruct text; reflexivity. Qed.

(** The scan does what the spec asks of it. *)
Lemma enforce_stop_tokens_cut (text : string) (stops : list string) :
  cut_before_earliest text stops (Writer.enforce_stop_tokens text stops).
Proof.
  induction text as [| c rest IH].
  - rewrite enforce_stop_tokens_unfold. destruct (existsb _ stops) eqn:E.
    + apply existsb_prefix_occurs in E as (s & Hin & Ho).
      left. exists 0, s. repeat split; [done | done | lia].
    + right. split; [| reflexivity]. intros s k Hin Ho.
      assert (k = 0) as ->.
      { destruct Ho as (pre & post & Heq & <-).
        destruct pre; [reflexivity | discriminate]. }
      assert (existsb (λ s, String.prefix s EmptyString) stops = true)
        by (apply existsb_prefix_occurs; eauto).
      congruence.
  - rewrite enforce_stop_tokens_unfold. destruct (existsb _ stops) eqn:E.
    + apply existsb_prefix_occurs in E as (s & Hin & Ho).
      left. exists 0, s. repeat split; [done | done | lia].
    + assert (Hno0 : ∀ s, s ∈ stops → ¬ occurs_at s (String c rest) 0).
      { intros s Hin Ho.
        assert (existsb (λ s, String.prefix s (String c rest)) stops = true)
          by (apply existsb_prefix_occurs; eauto).
        congruence. }
      destruct IH as [(k & s & Hin & Ho & Hmin & ->) | [Hnone ->]].
      * left. exists (S k), s. split; [done |]. split; [by apply occurs_at_succ |].
        split; [| reflexivity].
        intros [| j] s' Hin' Ho'; [by destruct (Hno0 s' Hin') |].
        apply occurs_at_succ in Ho'. specialize (Hmin j s' Hin' Ho'). lia.
      * right. split; [| reflexivity].
        intros s [| k] Hin Ho; [by destruct (Hno0 s Hin) |].
        apply occurs_at_succ in Ho. by destruct (Hnone s k Hin).
Qed.

Section WriterProperties.

Context {World : Type}.

Variable requests_post :
  string -> gmap string string -> gmap string Val -> Op World Writer.Response.

(** [_call] posts once; everything else follows from what came back. *)
Lemma Writer_call_unfold (self : Writer.t) (prompt : string)
    (stop : option (list string)) (kwargs : gmap string Val) (st : State World) :
  ∃ url headers json,
    url = match Writer.base_url self with
          | Some u => u
          | None =>
              "https://enterprise-api.writer.com/llm/organization/"
              +:+ format_opt_str (Writer.writer_org_id self)
              +:+ "/model/" +:+ Writer.model_id self +:+ "/completions"
          end
    ∧ headers = {[ "Authorization" := format_opt_str (Writer.writer_api_key self);
                   "Content-Type" := "application/json";
                   "Accept" := "application/json" ]}
    ∧ json = (kwargs ∪ Writer._default_params self) ∪ {[ "prompt" := VStr prompt ]}
    ∧ Writer._call requests_post self prompt stop kwargs st =
        (match fst (requests_post url headers json (world st)) with
         | inr response =>
             inr match stop with
                 | Some l => Writer.enforce_stop_tokens (Writer.text response) l
                 | None => Writer.text response
                 end
         | inl e => inl e
         end,
         {| world := snd (requests_post url headers json (world st));
            trace := trace st ++ [EvPost url headers json] |}).
Proof.
  exists (match Writer.base_url self with
          | Some u => u
          | None =>
              "https://enterprise-api.writer.com/llm"
              +:+ "/organization/" +:+ format_opt_str (Writer.writer_org_id self)
              +:+ "/model/" +:+ Writer.model_id self +:+ "/completions"
          end),
    ({[ "Authorization" := format_opt_str (Writer.writer_api_key self);
        "Content-Type" := "application/json";
        "Accept" := "application/json" ]} : gmap string string),
    ((kwargs ∪ Writer._default_params self) ∪ {[ "prompt" := VStr prompt ]}).
  split; [| split; [reflexivity | split; [reflexivity |]]].
  - destruct (Writer.base_url self); reflexivity.
  - unfold Writer._call, bind, perform.
    destruct (requests_post _ _ _ (world st)) as [[e | response] w'];
      simpl; [reflexivity |].
    destruct stop; reflexivity.
Qed.

Lemma Writer_call_posted_json (self : Writer.t) (prompt : string)
    (stop : option (list string)) (kwargs : gmap string Val) (w : World) :
  posted_json
    (trace (snd (Writer._call requests_post self prompt stop kwargs (start w))))
  = [(kwargs ∪ Writer._default_params self) ∪ {[ "prompt" := VStr prompt ]}].
Proof.
  destruct (Writer_call_unfold self prompt stop kwargs (start w))
    as (url & headers & json & _ & _ & -> & ->).
  reflexivity.
Qed.

Lemma Writer_call_posted_urls (self : Writer.t) (prompt : string)
    (stop : option (list string)) (kwargs : gmap string Val) (w : World) :
  posted_urls
    (trace (snd (Writer._call requests_post self prompt stop kwargs (start w))))
  = [match Writer.base_url self with
     | Some u => u
     | None =>
         "https://enterprise-api.writer.com/llm/organization/"
         +:+ format_opt_str (Writer.writer_org_id self)
         +:+ "/model/" +:+ Writer.model_id self +:+ "/completions"
     end].
Proof.
  destruct (Writer_call_unfold self prompt stop kwargs (start w))
    as (url & headers & json & -> & _ & _ & ->).
  reflexivity.
Qed.

(** C1, as the code has it.  The parameters of the outbound request are the
    merge of the adapter's default mapping with the call-site overrides, the
    call-site value winning for every key present in both, and the JSON body
    is that merge plus the prompt.  The default mapping always has all ten
    recognized keys: an option that is unset is sent with the value [None],
    and [logprobs] with its boolean.  With temperature 0.5 and n 1 set,
    nothing else set, and the override temperature 0.9, the parameters are
    temperature 0.9, n 1, logprobs false and the seven other keys [None]. *)
Theorem C1_request_parameters (self : Writer.t) (prompt : string)
    (stop : option (list string)) (kwargs : gmap string Val) (w : World) :
  let defaults := Writer._default_params self in
  let params := kwargs ∪ defaults in
  posted_json
    (trace (snd (Writer._call requests_post self prompt stop kwargs (start w))))
  = [params ∪ {[ "prompt" := VStr prompt ]}]
  ∧ (∀ k, params !! k = match kwargs !! k with
                         | Some v => Some v
                         | None => defaults !! k
                         end)
  ∧ dom defaults
    = {[ "minTokens"; "maxTokens"; "temperature"; "topP"; "stop";
         "presencePenalty"; "repetitionPenalty"; "bestOf"; "logprobs"; "n" ]}
  ∧ (defaults !! "minTokens" = Some (opt VInt (Writer.min_tokens self))
     ∧ defaults !! "maxTokens" = Some (opt VInt (Writer.max_tokens self))
     ∧ defaults !! "temperature" = Some (opt VFloat (Writer.temperature self))
     ∧ defaults !! "topP" = Some (opt VFloat (Writer.top_p self))
     ∧ defaults !! "stop" = Some (opt Writer.VStrList (Writer.stop self))
     ∧ defaults !! "presencePenalty"
       = Some (opt VFloat (Writer.presence_penalty self))
     ∧ defaults !! "repetitionPenalty"
       = Some (opt VFloat (Writer.repetition_penalty self))
     ∧ defaults !! "bestOf" = Some (opt VInt (Writer.best_of self))
     ∧ defaults !! "logprobs" = Some (VBool (Writer.logprobs self))
     ∧ defaults !! "n" = Some (opt VInt (Writer.n self)))
  ∧ (∀ base_url : option string,
       ({[ "temperature" := VFloat (9 # 10)%Q ]} : gmap string Val)
       ∪ Writer._default_params (Demo.writer base_url)
       = {[ "minTokens" := VNone; "maxTokens" := VNone;
            "temperature" := VFloat (9 # 10)%Q; "topP" := VNone;
            "stop" := VNone; "presencePenalty" := VNone;
            "repetitionPenalty" := VNone; "bestOf" := VNone;
            "logprobs" := VBool false; "n" := VInt 1 ]}).
Proof.
  intros defaults params. split; [| split; [| split; [| split]]].
  - apply Writer_call_posted_json.
  - intros k. unfold params. rewrite lookup_union.
    destruct (kwargs !! k), (defaults !! k); reflexivity.
  - unfold defaults, Writer._default_params.
    rewrite !dom_insert_L, dom_singleton_L. reflexivity.
  - repeat split.
  - intros base_url. apply map_eq. intros k.
    unfold Writer._default_params, Demo.writer, opt. simpl. by_keys.
Qed.

(** What [_call] gives back, in terms of what the transport gave back for
    the one request posted; the request does not depend on [stop]. *)
Lemma Writer_call_result (self : Writer.t) (prompt : string)
    (kwargs : gmap string Val) (w : World) :
  ∃ url headers json,
    ∀ stop,
      posted (trace (snd (Writer._call requests_post self prompt stop kwargs
                            (start w))))
      = [(url, headers, json)]
      ∧ fst (Writer._call requests_post self prompt stop kwargs (start w))
        = match fst (requests_post url headers json w) with
          | inr response =>
              inr match stop with
                  | Some l => Writer.enforce_stop_tokens (Writer.text response) l
                  | None => Writer.text response
                  end
          | inl e => inl e
          end.
Proof.
  eexists _, _, _. intros stop.
  destruct (Writer_call_unfold self prompt stop kwargs (start w))
    as (url & headers & json & -> & -> & -> & ->).
  split; reflexivity.
Qed.

(** C2.  Whatever text [T] the transport answers with: given a stop list,
    the operation returns [T] cut immediately before the earliest occurrence
    of any listed stop sequence, and [T] itself when none of them occurs;
    given no stop list, it returns [T].  When STOP1 first occurs at index 10
    and STOP2 at index 20 and the list is STOP1, STOP2, the result is
    [T[0:10]]. *)
Theorem C2_stop_sequence_truncation (self : Writer.t) (prompt : string)
    (kwargs : gmap string Val) (w : World) :
  ∃ url headers json,
    (∀ stop,
       posted (trace (snd (Writer._call requests_post self prompt stop kwargs
                             (start w))))
       = [(url, headers, json)])
    ∧ ∀ response,
        fst (requests_post url headers json w) = inr response →
        let T := Writer.text response in
        let complete stop :=
          fst (Writer._call requests_post self prompt stop kwargs (start w)) in
        (∀ stops, ∃ r, complete (Some stops) = inr r
                       ∧ cut_before_earliest T stops r)
        ∧ complete None = inr T
        ∧ (occurs_at "STOP1" T 10 → (∀ j, occurs_at "STOP1" T j → 10 ≤ j) →
           occurs_at "STOP2" T 20 → (∀ j, occurs_at "STOP2" T j → 20 ≤ j) →
           complete (Some ["STOP1"; "STOP2"]) = inr (substring 0 10 T)).
Proof.
  destruct (Writer_call_result self prompt kwargs w)
    as (url & headers & json & H).
  exists url, headers, json. split; [intros stop; apply H |].
  intros response Hr T complete.
  assert (Hc : ∀ stops,
             complete (Some stops) = inr (Writer.enforce_stop_tokens T stops)).
  { intros stops. unfold complete.
    rewrite (proj2 (H (Some stops))), Hr. reflexivity. }
  split; [| split].
  - intros stops. eexists. split; [apply Hc |]. apply enforce_stop_tokens_cut.
  - unfold complete. rewrite (proj2 (H None)), Hr. reflexivity.
  - intros H1 H1min H2 H2min. rewrite Hc. f_equal.
    destruct (enforce_stop_tokens_cut T ["STOP1"; "STOP2"])
      as [(k & s & Hin & Ho & Hmin & ->) | [Hnone _]].
    + assert (k ≤ 10) by (apply (Hmin 10 "STOP1"); [constructor | done]).
      assert (10 ≤ k).
      { apply list_elem_of_In in Hin. destruct Hin as [<- | [<- | []]].
        - by apply H1min.
        - specialize (H2min k Ho). lia. }
      by replace k with 10 by lia.
    + destruct (Hnone "STOP1" 10); [constructor | done].
Qed.

(** C3, as the code has it.  The operation posts once and does not look at
    the status of what comes back: when the transport returns a response,
    of whatever status, the operation returns its body text (cut at the stop
    sequences when a stop list is given); when the transport raises, the
    operation raises that same error. *)
Theorem C3_status_is_not_checked (self : Writer.t) (prompt : string)
    (stop : option (list string)) (kwargs : gmap string Val) (w : World) :
  ∃ url headers json,
    posted (trace (snd (Writer._call requests_post self prompt stop kwargs
                          (start w))))
    = [(url, headers, json)]
    ∧ (∀ response,
         fst (requests_post url headers json w) = inr response →
         fst (Writer._call requests_post self prompt stop kwargs (start w))
         = inr match stop with
               | Some l => Writer.enforce_stop_tokens (Writer.text response) l
               | None => Writer.text response
               end)
    ∧ (∀ e,
         fst (requests_post url headers json w) = inl e →
         fst (Writer._call requests_post self prompt stop kwargs (start w))
         = inl e).
Proof.
  destruct (Writer_call_result self prompt kwargs w)
    as (url & headers & json & H).
  exists url, headers, json. destruct (H stop) as [Hp Hr].
  split; [exact Hp |]. split.
  - intros response E. rewrite Hr, E. reflexivity.
  - intros e E. rewrite Hr, E. reflexivity.
Qed.

(** C7.  The one request goes to the configured base URL as it is when one
    is set, and otherwise to the fixed template with the organization id
    and the model id in it: organization org1 and model modelA give
    https://enterprise-api.writer.com/llm/organization/org1/model/modelA/completions,
    and the override https://x/y gives https://x/y. *)
Theorem C7_endpoint_resolution (self : Writer.t) (prompt : string)
    (stop : option (list string)) (kwargs : gmap string Val) (w : World) :
  let urls (self : Writer.t) :=
    posted_urls
      (trace (snd (Writer._call requests_post self prompt stop kwargs
                     (start w)))) in
  urls self
  = [match Writer.base_url self with
     | Some u => u
     | None =>
         "https://enterprise-api.writer.com/llm/organization/"
         +:+ format_opt_str (Writer.writer_org_id self)
         +:+ "/model/" +:+ Writer.model_id self +:+ "/completions"
     end]
  ∧ urls (Demo.writer None)
    = ["https://enterprise-api.writer.com/llm/organization/org1/model/modelA/completions"]
  ∧ urls (Demo.writer (Some "https://x/y")) = ["https://x/y"].
Proof.
  intros urls. unfold urls. rewrite !Writer_call_posted_urls.
  split; [| split]; reflexivity.
Qed.

End WriterProperties.

(** C1 as it is worded does not hold: with temperature 0.5 and n 1 set and
    the override temperature 0.9, the body posted is not the prompt with
    temperature 0.9 and n 1 alone; [minTokens], which is unset, is in it with
    the value [None]. *)
Lemma C1_unset_options_are_sent :
  let tr :=
    trace (snd (Writer._call
                  (Demo.answering {| Writer.status_code := 200; Writer.text := "ok" |})
                  (Demo.writer None) "hi" None
                  {[ "temperature" := VFloat (9 # 10)%Q ]} (start ∅))) in
  posted_json tr
  ≠ [ {[ "prompt" := VStr "hi"; "temperature" := VFloat (9 # 10)%Q;
         "n" := VInt 1 ]} ]
  ∧ Writer.min_tokens (Demo.writer None) = None
  ∧ ∃ json, posted_json tr = [json] ∧ json !! "minTokens" = Some VNone.
Proof.
  intros tr. unfold tr. rewrite Writer_call_posted_json.
  split; [| split; [reflexivity |]].
  - intros H.
    apply (f_equal (λ l : list (gmap string Val),
                      head l ≫= lookup "minTokens")) in H.
    revert H. cbn [head mbind option_bind].
    unfold Writer._default_params. by_keys.
  - eexists. split; [reflexivity |].
    unfold Writer._default_params. by_keys.
Qed.

(** The stop-sequence property at work: the server answers with a text in
    which STOP1 first occurs at index 10 and STOP2 at index 20. *)
Lemma C2_stop_sequence_truncation_witness :
  let response :=
    {| Writer.status_code := 200; Writer.text := Demo.stop_text |} in
  (∀ url headers json, fst (Demo.answering response url headers json ∅) = inr response)
  ∧ occurs_at "STOP1" Demo.stop_text 10
  ∧ occurs_at "STOP2" Demo.stop_text 20
  ∧ fst (Writer._call (Demo.answering response) (Demo.writer None) "hi"
           (Some ["STOP1"; "STOP2"]) ∅ (start ∅))
    = inr "0123456789".
Proof.
  intros response.
  assert (H1 : occurs_at "STOP1" Demo.stop_text 10)
    by (exists "0123456789", "abcdeSTOP2xyz"; split; reflexivity).
  assert (H2 : occurs_at "STOP2" Demo.stop_text 20)
    by (exists "0123456789STOP1abcde", "xyz"; split; reflexivity).
  split; [reflexivity |]. split; [exact H1 |]. split; [exact H2 |].
  destruct (C2_stop_sequence_truncation (Demo.answering response)
              (Demo.writer None) "hi" ∅ ∅)
    as (url & headers & json & _ & H).
  destruct (H response eq_refl) as (_ & _ & Hex).
  apply Hex; [exact H1 | | exact H2 |]; intros j Ho; unfold Demo.stop_text in Ho.
  - do 10 (destruct j as [| j];
           [apply prefix_occurs_at in Ho; discriminate
           | apply occurs_at_succ in Ho]).
    lia.
  - do 20 (destruct j as [| j];
           [apply prefix_occurs_at in Ho; discriminate
           | apply occurs_at_succ in Ho]).
    lia.
Defined.

(** The status is not looked at: a 500 answer is returned as text, and a
    transport error comes out as it went in. *)
Lemma C3_status_is_not_checked_witness :
  let response :=
    {| Writer.status_code := 500; Writer.text := "Internal Server Error" |} in
  fst (Writer._call (Demo.answering response) (Demo.writer None) "hi" None ∅
         (start ∅))
  = inr "Internal Server Error"
  ∧ fst (Writer._call Demo.unreachable (Demo.writer None) "hi" None ∅ (start ∅))
    = inl (Raised "ConnectionError" "no route to host").
Proof.
  intros response. split.
  - destruct (C3_status_is_not_checked (Demo.answering response)
                (Demo.writer None) "hi" None ∅ ∅)
      as (url & headers & json & _ & Hok & _).
    apply (Hok response eq_refl).
  - destruct (C3_status_is_not_checked Demo.unreachable
                (Demo.writer None) "hi" None ∅ ∅)
      as (url & headers & json & _ & _ & Herr).
    apply (Herr _ eq_refl).
Defined.

(** C3 as it is worded does not hold: the POST comes back with status 500,
    which is not a success status, and the operation returns the body text
    instead of raising. *)
Lemma C3_status_500_is_returned :
  let response :=
    {| Writer.status_code := 500; Writer.text := "Internal Server Error" |} in
  let outcome :=
    fst (Writer._call (Demo.answering response) (Demo.writer None) "hi" None ∅
           (start ∅)) in
  ¬ (200 ≤ Writer.status_code response < 300)%Z
  ∧ (∀ url headers json,
       fst (Demo.answering response url headers json ∅) = inr response)
  ∧ outcome = inr "Internal Server Error"
  ∧ ¬ ∃ e, outcome = inl e.
Proof.
  intros response outcome.
  assert (Ho : outcome = inr "Internal Server Error").
  { unfold outcome.
    destruct (Writer_call_result (Demo.answering response) (Demo.writer None)
                "hi" ∅ ∅) as (url & headers & json & H).
    rewrite (proj2 (H None)). reflexivity. }
  split; [simpl; lia |]. split; [reflexivity |]. split; [exact Ho |].
  intros [e He]. rewrite Ho in He. discriminate.
Qed.

(** ** Properties of constructing a Writer *)

Lemma validate_field_other (input : gmap string Val)
    (acc : gmap string Val * list ErrorWrapper) (f : Writer.Field) (k : string) :
  Writer.name f ≠ k →
  (Writer.validate_field input acc f).1 !! k = acc.1 !! k.
Proof.
  intros Hne. destruct acc as [values errors]. unfold Writer.validate_field.
  destruct (input !! Writer.name f) as [v |]; simpl.
  - destruct (Writer.validate f v); simpl; [by rewrite lookup_insert_ne | done].
  - by rewrite lookup_insert_ne.
Qed.

Lemma validate_fields_other (input : gmap string Val) (fs : list Writer.Field)
    (acc : gmap string Val * list ErrorWrapper) (k : string) :
  Forall (λ g, Writer.name g ≠ k) fs →
  (foldl (Writer.validate_field input) acc fs).1 !! k = acc.1 !! k.
Proof.
  intros H. revert acc. induction H as [| g fs Hg _ IH]; intros acc; simpl.
  - reflexivity.
  - rewrite IH. by apply validate_field_other.
Qed.

(** A field that a mapping was not given, or was given as [None], and that
    is declared optional with default [None], ends up [None]. *)
Lemma validate_fields_unsupplied (input : gmap string Val)
    (pre post : list Writer.Field) (f : Writer.Field)
    (acc : gmap string Val * list ErrorWrapper) :
  Forall (λ g, Writer.name g ≠ Writer.name f) post →
  Writer.default f = VNone →
  Writer.validate f VNone = Some VNone →
  input !! Writer.name f = None ∨ input !! Writer.name f = Some VNone →
  (foldl (Writer.validate_field input) acc (pre ++ f :: post)).1 !! Writer.name f
  = Some VNone.
Proof.
  intros Hpost Hd Hv Hin. rewrite foldl_app. simpl.
  rewrite validate_fields_other by done.
  destruct (foldl _ acc pre) as [values errors]. unfold Writer.validate_field.
  destruct Hin as [-> | ->]; [| rewrite Hv]; simpl;
    rewrite lookup_insert_eq; congruence.
Qed.

Lemma own_fields_unsupplied (input : gmap string Val)
    (acc : gmap string Val * list ErrorWrapper) (key : string) :
  key = "writer_api_key" ∨ key = "writer_org_id" →
  input !! key = None ∨ input !! key = Some VNone →
  (foldl (Writer.validate_field input) acc Writer.own_fields).1 !! key
  = Some VNone.
Proof.
  intros [-> | ->] Hin.
  - change Writer.own_fields
      with (take 12 Writer.own_fields
              ++ {| Writer.name := "writer_api_key";
                    Writer.validate := Writer.optional Writer.str_validator;
                    Writer.default := VNone |}
              :: drop 13 Writer.own_fields).
    apply (validate_fields_unsupplied input _ _
             {| Writer.name := "writer_api_key";
                Writer.validate := Writer.optional Writer.str_validator;
                Writer.default := VNone |}); try done.
    repeat constructor; discriminate.
  - change Writer.own_fields
      with ([] ++ {| Writer.name := "writer_org_id";
                     Writer.validate := Writer.optional Writer.str_validator;
                     Writer.default := VNone |}
               :: drop 1 Writer.own_fields).
    apply (validate_fields_unsupplied input _ _
             {| Writer.name := "writer_org_id";
                Writer.validate := Writer.optional Writer.str_validator;
                Writer.default := VNone |}); try done.
    repeat constructor; discriminate.
Qed.

Lemma get_from_dict_or_env_raises (environ : gmap string string)
    (data : gmap string Val) (key env_key : string) (e : Exn) :
  Writer.get_from_dict_or_env environ data key env_key = inl e →
  ∃ m, e = ValueError m.
Proof.
  unfold Writer.get_from_dict_or_env.
  destruct (data !! key) as [[] |], (environ !! env_key);
    intros [= <-]; eauto.
Qed.

(** The root validator raises nothing but [ValueError]. *)
Lemma validate_environment_raises (environ : gmap string string)
    (values : gmap string Val) (e : Exn) :
  Writer.validate_environment environ values = inl e → ∃ m, e = ValueError m.
Proof.
  unfold Writer.validate_environment.
  destruct (Writer.get_from_dict_or_env environ values _ _) as [e1 | k1] eqn:E1.
  - intros [= <-]. by eapply get_from_dict_or_env_raises.
  - destruct (Writer.get_from_dict_or_env environ _ "writer_org_id" _)
      as [e2 | k2] eqn:E2; [| discriminate].
    intros [= <-]. by eapply get_from_dict_or_env_raises.
Qed.

Lemma validate_environment_missing (environ : gmap string string)
    (values : gmap string Val) :
  (values !! "writer_api_key" = Some VNone ∧ environ !! "WRITER_API_KEY" = None)
  ∨ (values !! "writer_org_id" = Some VNone ∧ environ !! "WRITER_ORG_ID" = None) →
  ∃ m, Writer.validate_environment environ values = inl (ValueError m).
Proof.
  intros [[Hv He] | [Hv He]];
    unfold Writer.validate_environment.
  - unfold Writer.get_from_dict_or_env at 1. rewrite Hv, He. eauto.
  - destruct (Writer.get_from_dict_or_env environ values _ _) as [e | key] eqn:E.
    + destruct (validate_environment_raises environ values e) as [m ->]; eauto.
      unfold Writer.validate_environment. by rewrite E.
    + unfold Writer.get_from_dict_or_env.
      rewrite lookup_insert_ne by discriminate. rewrite Hv, He. eauto.
Qed.

Lemma elem_of_insert_sorted (k x : string) (l : list string) :
  x ∈ Writer.insert_sorted k l ↔ x = k ∨ x ∈ l.
Proof.
  induction l as [| k' l IH]; simpl.
  - rewrite list_elem_of_singleton, elem_of_nil. tauto.
  - destruct (String.leb k k').
    + by rewrite elem_of_cons.
    + rewrite !elem_of_cons, IH. tauto.
Qed.

(** Sorting keeps the names it was given. *)
Lemma elem_of_sorted (x : string) (l : list string) :
  x ∈ Writer.sorted l ↔ x ∈ l.
Proof.
  unfold Writer.sorted. induction l as [| k l IH]; simpl.
  - reflexivity.
  - by rewrite elem_of_insert_sorted, elem_of_cons, IH.
Qed.

Lemma is_declared_false (fields : list Writer.Field) (k : string) :
  Writer.is_declared fields k = false ↔ k ∉ map Writer.name fields.
Proof.
  unfold Writer.is_declared. rewrite <- not_true_iff_false, existsb_exists.
  rewrite list_elem_of_In. split.
  - intros H Hin. apply H. exists k. split; [done | apply String.eqb_refl].
  - intros H (x & Hin & Heq). apply String.eqb_eq in Heq. by subst.
Qed.

Lemma elem_of_extra_names (fields : list Writer.Field)
    (input : gmap string Val) (k : string) :
  k ∈ Writer.extra_names fields input
  ↔ is_Some (input !! k) ∧ k ∉ map Writer.name fields.
Proof.
  unfold Writer.extra_names.
  rewrite elem_of_sorted, list_elem_of_In, filter_In, <- list_elem_of_In.
  rewrite elem_of_elements, elem_of_dom, negb_true_iff, is_declared_false.
  tauto.
Qed.

Section ConstructionProperties.

Context {World : Type}.

Variable os_environ : World -> gmap string string.

Variable base_fields : list Writer.Field.

(** C8.  When no API key is supplied, neither as an argument nor in the
    environment, construction fails with a validation error that carries
    the root validator's complaint, and the state of the world and the
    trace are as they were: nothing was posted.  The same holds when the
    organization id is missing. *)
Theorem C8_missing_credential (kwargs : gmap string Val) (st : State World) :
  let environ := os_environ (world st) in
  ((kwargs !! "writer_api_key" = None ∨ kwargs !! "writer_api_key" = Some VNone)
   ∧ environ !! "WRITER_API_KEY" = None)
  ∨ ((kwargs !! "writer_org_id" = None ∨ kwargs !! "writer_org_id" = Some VNone)
     ∧ environ !! "WRITER_ORG_ID" = None) →
  ∃ errors m,
    Writer.init os_environ base_fields kwargs st
    = (inl (ValidationError errors), st)
    ∧ {| loc := "__root__"; msg := m |} ∈ errors
    ∧ posted (trace (snd (Writer.init os_environ base_fields kwargs st)))
      = posted (trace st).
Proof.
  intros environ H.
  unfold Writer.init, Writer.validate_model, Writer.validate_fields, Writer.fields.
  fold environ. rewrite foldl_app.
  set (acc := foldl _ (∅, []) base_fields).
  pose proof (own_fields_unsupplied kwargs acc "writer_api_key") as Hkey.
  pose proof (own_fields_unsupplied kwargs acc "writer_org_id") as Horg.
  destruct (foldl _ acc Writer.own_fields) as [values errors]. simpl in Hkey, Horg.
  destruct (validate_environment_missing environ values) as [m Hm].
  { destruct H as [[Hk He] | [Hk He]]; [left | right]; split; auto. }
  rewrite Hm. eexists _, m. split; [reflexivity |]. split; [| reflexivity].
  apply elem_of_app. right. constructor.
Qed.

(** C9.  When the arguments name a field that the class does not declare,
    construction fails with a validation error that reports that name as an
    extra field that is not permitted. *)
Theorem C9_extra_fields_forbidden (kwargs : gmap string Val) (st : State World)
    (k : string) :
  is_Some (kwargs !! k) →
  k ∉ map Writer.name (Writer.fields base_fields) →
  ∃ errors,
    Writer.init os_environ base_fields kwargs st
    = (inl (ValidationError errors), st)
    ∧ {| loc := k; msg := "extra fields not permitted" |} ∈ errors.
Proof.
  intros Hk Hnot.
  assert (Hex : k ∈ Writer.extra_names (Writer.fields base_fields) kwargs)
    by (by apply elem_of_extra_names).
  unfold Writer.init, Writer.validate_model.
  destruct (Writer.validate_fields _ kwargs) as [values errors].
  set (errors' := errors ++ _).
  assert (Hin : {| loc := k; msg := "extra fields not permitted" |} ∈ errors').
  { apply elem_of_app. right. unfold Writer.extra_errors, Writer.Config_extra.
    apply list_elem_of_In, in_map_iff. exists k.
    split; [reflexivity | by apply list_elem_of_In]. }
  destruct (Writer.validate_environment _ values) as [e | values'] eqn:E.
  - destruct (validate_environment_raises _ _ _ E) as [m ->].
    eexists. split; [reflexivity |]. apply elem_of_app. by left.
  - destruct errors' as [| e0 rest]; [by apply elem_of_nil in Hin |].
    eexists. split; [reflexivity | done].
Qed.

End ConstructionProperties.

(** Construction succeeds when both credentials can be found, here one from
    the arguments and one from the environment. *)
Example init_with_credentials :
  fst (Writer.init Demo.os_environ Demo.base_fields
         {[ "writer_api_key" := VStr "k"; "temperature" := VInt 1 ]}
         (start {[ "WRITER_ORG_ID" := "o" ]}))
  = inr {| Writer.writer_org_id := Some "o";
           Writer.model_id := "palmyra-instruct";
           Writer.min_tokens := None;
           Writer.max_tokens := None;
           Writer.temperature := Some (inject_Z 1);
           Writer.top_p := None;
           Writer.stop := None;
           Writer.presence_penalty := None;
           Writer.repetition_penalty := None;
           Writer.best_of := None;
           Writer.logprobs := false;
           Writer.n := None;
           Writer.writer_api_key := Some "k";
           Writer.base_url := None |}.
Proof. vm_compute. reflexivity. Qed.

(** No API key in the arguments, an empty environment: construction fails,
    and nothing was posted. *)
Lemma C8_missing_credential_witness :
  let kwargs : gmap string Val := {[ "model_id" := VStr "palmyra-base" ]} in
  let st : State Demo.World := start ∅ in
  (kwargs !! "writer_api_key" = None
   ∧ Demo.os_environ (world st) !! "WRITER_API_KEY" = None)
  ∧ ∃ errors m,
      Writer.init Demo.os_environ Demo.base_fields kwargs st
      = (inl (ValidationError errors), st)
      ∧ {| loc := "__root__"; msg := m |} ∈ errors
      ∧ posted (trace (snd (Writer.init Demo.os_environ Demo.base_fields
                              kwargs st)))
        = posted (trace st).
Proof.
  intros kwargs st.
  assert (H : kwargs !! "writer_api_key" = None
              ∧ Demo.os_environ (world st) !! "WRITER_API_KEY" = None)
    by (split; reflexivity).
  split; [exact H |].
  apply (C8_missing_credential Demo.os_environ Demo.base_fields kwargs st).
  left. split; [left |]; apply H.
Defined.

(** An argument named max_length, which no field declares: construction
    fails and says so. *)
Lemma C9_extra_fields_forbidden_witness :
  let kwargs : gmap string Val :=
    {[ "writer_api_key" := VStr "k"; "writer_org_id" := VStr "o";
       "max_length" := VInt 5 ]} in
  let st : State Demo.World := start ∅ in
  kwargs !! "max_length" = Some (VInt 5)
  ∧ Writer.is_declared (Writer.fields Demo.base_fields) "max_length" = false
  ∧ ∃ errors,
      Writer.init Demo.os_environ Demo.base_fields kwargs st
      = (inl (ValidationError errors), st)
      ∧ {| loc := "max_length"; msg := "extra fields not permitted" |} ∈ errors.
Proof.
  intros kwargs st.
  assert (H1 : kwargs !! "max_length" = Some (VInt 5)) by reflexivity.
  assert (H2 : Writer.is_declared (Writer.fields Demo.base_fields) "max_length"
               = false) by reflexivity.
  split; [exact H1 |]. split; [exact H2 |].
  apply (C9_extra_fields_forbidden Demo.os_environ Demo.base_fields kwargs st
           "max_length").
  - rewrite H1. eexists. reflexivity.
  - apply is_declared_false. exact H2.
Defined.

(** ** Properties of the Kuzu QA chain *)

Section Steps.

Context {World : Type}.

Lemma bind_perform {A B} (ev : Event) (op : Op World A) (k : A → M World B)
    (st : State World) :
  bind (perform ev op) k st
  = match op (world st) with
    | (inr a, w') => k a {| world := w'; trace := trace st ++ [ev] |}
    | (inl e, w') => (inl e, {| world := w'; trace := trace st ++ [ev] |})
    end.
Proof.
  unfold bind, perform. destruct (op (world st)) as [[e | a] w']; reflexivity.
Qed.

Lemma bind_emit {B} (ev : Event) (k : unit → M World B) (st : State World) :
  bind (emit ev) k st
  = k tt {| world := world st; trace := trace st ++ [ev] |}.
Proof. reflexivity. Qed.

Lemma bind_lift_result {A B} (r : Exn + A) (k : A → M World B)
    (st : State World) :
  bind (lift_result r) k st
  = match r with
    | inr a => k a st
    | inl e => (inl e, st)
    end.
Proof. destruct r; reflexivity. Qed.

End Steps.

(** Follow [_call] one collaborator at a time. *)
Ltac step :=
  first [ rewrite bind_lift_result | rewrite bind_perform | rewrite bind_emit ];
  cbn [world trace start].

Section KuzuProperties.

Context {World : Type}.

Variable str : Val -> string.

(** C4.  The query-generation chain is run once, with exactly the two named
    inputs question and schema: the question found under the input key and
    the schema string the graph returned.  Another question changes nothing
    but the question input, another schema nothing but the schema input. *)
Theorem C4_generation_inputs (self : KuzuQAChain.t World)
    (inputs : gmap string Val) (w w1 : World) (q : Val) (s : string) :
  inputs !! KuzuQAChain.input_key self = Some q →
  KuzuGraph.get_schema (KuzuQAChain.graph self) w = (inr s, w1) →
  run_inputs (trace (snd (KuzuQAChain._call str self inputs (start w))))
  = [ {[ "question" := q; "schema" := VStr s ]} ]
  ∧ dom ({[ "question" := q; "schema" := VStr s ]} : gmap string Val)
    = {[ "question"; "schema" ]}
  ∧ (∀ (q' : Val) (k : string),
       k ≠ "question" →
       ({[ "question" := q'; "schema" := VStr s ]} : gmap string Val) !! k
       = ({[ "question" := q; "schema" := VStr s ]} : gmap string Val) !! k)
  ∧ (∀ (s' : string) (k : string),
       k ≠ "schema" →
       ({[ "question" := q; "schema" := VStr s' ]} : gmap string Val) !! k
       = ({[ "question" := q; "schema" := VStr s ]} : gmap string Val) !! k).
Proof.
  intros Hq Hs. split; [| split; [| split]].
  - unfold KuzuQAChain._call, getitem. rewrite Hq.
    step. step. rewrite Hs. step.
    destruct (LLMChain.run _ _ w1) as [[e | cypher] w2]; [reflexivity |].
    step. step. step.
    destruct (KuzuGraph.query _ cypher w2) as [[e | context] w3]; [reflexivity |].
    step. step. step.
    destruct (LLMChain.call _ _ w3) as [[e | result] w4]; [reflexivity |].
    step. destruct (result !! _); reflexivity.
  - rewrite dom_insert_L, dom_singleton_L. reflexivity.
  - intros q' k Hk. by rewrite !lookup_insert_ne.
  - intros s' k Hk. by_keys.
Qed.

(** The chain once the generated query has been executed: all that is left
    is the answer chain and the lookup of its output. *)
Lemma KuzuQAChain_call_after_query (self : KuzuQAChain.t World)
    (inputs : gmap string Val) (w w1 w2 w3 : World) (q : Val) (s cypher : string)
    (c : Val) :
  inputs !! KuzuQAChain.input_key self = Some q →
  KuzuGraph.get_schema (KuzuQAChain.graph self) w = (inr s, w1) →
  LLMChain.run (KuzuQAChain.cypher_generation_chain self)
    {[ "question" := q; "schema" := VStr s ]} w1 = (inr cypher, w2) →
  KuzuGraph.query (KuzuQAChain.graph self) cypher w2 = (inr c, w3) →
  KuzuQAChain._call str self inputs (start w)
  = match LLMChain.call (KuzuQAChain.qa_chain self)
            {[ "question" := q; "context" := c ]} w3 with
    | (inr result, w4) =>
        let st :=
          {| world := w4;
             trace := [ EvGetSchema;
                        EvRun {[ "question" := q; "schema" := VStr s ]};
                        EvOnText "Generated Cypher:"; EvOnText cypher;
                        EvQuery cypher;
                        EvOnText "Full Context:"; EvOnText (str c);
                        EvCall {[ "question" := q; "context" := c ]} ] |} in
        match result !! LLMChain.output_key (KuzuQAChain.qa_chain self) with
        | Some answer => (inr {[ KuzuQAChain.output_key self := answer ]}, st)
        | None =>
            (inl (KeyError (LLMChain.output_key (KuzuQAChain.qa_chain self))),
             st)
        end
    | (inl e, w4) =>
        (inl e,
         {| world := w4;
            trace := [ EvGetSchema;
                       EvRun {[ "question" := q; "schema" := VStr s ]};
                       EvOnText "Generated Cypher:"; EvOnText cypher;
                       EvQuery cypher;
                       EvOnText "Full Context:"; EvOnText (str c);
                       EvCall {[ "question" := q; "context" := c ]} ] |})
    end.
Proof.
  intros Hq Hs Hrun Hquery.
  unfold KuzuQAChain._call, getitem. rewrite Hq.
  step. step. rewrite Hs. step. rewrite Hrun. step. step. step.
  rewrite Hquery. step. step. step.
  destruct (LLMChain.call _ _ w3) as [[e | result] w4]; [reflexivity |].
  step. destruct (result !! _); reflexivity.
Qed.

(** C5.  When the generated query has been executed and the graph returned
    [c], the answer chain is called once, with exactly the two named inputs
    question and context, the context being [c] as the graph returned it;
    and what the chain returns is the mapping from its output key to the
    value the answer chain gave under that chain's own output key. *)
Theorem C5_synthesis_inputs_and_answer (self : KuzuQAChain.t World)
    (inputs : gmap string Val) (w w1 w2 w3 : World) (q : Val) (s cypher : string)
    (c : Val) :
  inputs !! KuzuQAChain.input_key self = Some q →
  KuzuGraph.get_schema (KuzuQAChain.graph self) w = (inr s, w1) →
  LLMChain.run (KuzuQAChain.cypher_generation_chain self)
    {[ "question" := q; "schema" := VStr s ]} w1 = (inr cypher, w2) →
  KuzuGraph.query (KuzuQAChain.graph self) cypher w2 = (inr c, w3) →
  call_inputs (trace (snd (KuzuQAChain._call str self inputs (start w))))
  = [ {[ "question" := q; "context" := c ]} ]
  ∧ dom ({[ "question" := q; "context" := c ]} : gmap string Val)
    = {[ "question"; "context" ]}
  ∧ (∀ (result : gmap string Val) (w4 : World) (answer : Val),
       LLMChain.call (KuzuQAChain.qa_chain self)
         {[ "question" := q; "context" := c ]} w3 = (inr result, w4) →
       result !! LLMChain.output_key (KuzuQAChain.qa_chain self) = Some answer →
       fst (KuzuQAChain._call str self inputs (start w))
       = inr {[ KuzuQAChain.output_key self := answer ]}).
Proof.
  intros Hq Hs Hrun Hquery.
  pose proof (KuzuQAChain_call_after_query self inputs w w1 w2 w3 q s cypher c
                Hq Hs Hrun Hquery) as Hstart.
  split; [| split].
  - rewrite Hstart.
    destruct (LLMChain.call _ _ w3) as [[e | result] w4]; [reflexivity |].
    simpl. destruct (result !! _); reflexivity.
  - rewrite dom_insert_L, dom_singleton_L. reflexivity.
  - intros result w4 answer Hcall Ha. rewrite Hstart, Hcall. simpl.
    rewrite Ha. reflexivity.
Qed.

(** C6.  When executing the generated query raises, the chain raises that
    same error: the graph was queried once, with the generated query, the
    answer chain was never called, and the world is as the failed query
    left it. *)
Theorem C6_query_error_propagates (self : KuzuQAChain.t World)
    (inputs : gmap string Val) (w w1 w2 w3 : World) (q : Val) (s cypher : string)
    (e : Exn) :
  inputs !! KuzuQAChain.input_key self = Some q →
  KuzuGraph.get_schema (KuzuQAChain.graph self) w = (inr s, w1) →
  LLMChain.run (KuzuQAChain.cypher_generation_chain self)
    {[ "question" := q; "schema" := VStr s ]} w1 = (inr cypher, w2) →
  KuzuGraph.query (KuzuQAChain.graph self) cypher w2 = (inl e, w3) →
  let outcome := KuzuQAChain._call str self inputs (start w) in
  fst outcome = inl e
  ∧ queries (trace (snd outcome)) = [cypher]
  ∧ call_inputs (trace (snd outcome)) = []
  ∧ world (snd outcome) = w3.
Proof.
  intros Hq Hs Hrun Hquery outcome. unfold outcome.
  unfold KuzuQAChain._call, getitem. rewrite Hq.
  step. step. rewrite Hs. step. rewrite Hrun. step. step. step.
  rewrite Hquery. repeat split.
Qed.

(** C10, as the code has it.  The declared input keys are the one-element
    list holding the instance's input key, and the declared output keys the
    one-element list holding its output key; these are query and result for
    an instance that keeps the class defaults.  Every successful invocation
    returns a mapping with exactly one key, the instance's output key. *)
Theorem C10_declared_keys (self : KuzuQAChain.t World) :
  KuzuQAChain.input_keys self = [KuzuQAChain.input_key self]
  ∧ KuzuQAChain.output_keys self = [KuzuQAChain.output_key self]
  ∧ (KuzuQAChain.input_key self = KuzuQAChain.default_input_key →
     KuzuQAChain.input_keys self = ["query"])
  ∧ (KuzuQAChain.output_key self = KuzuQAChain.default_output_key →
     KuzuQAChain.output_keys self = ["result"])
  ∧ (∀ (inputs : gmap string Val) (w : World) (r : gmap string Val),
       fst (KuzuQAChain._call str self inputs (start w)) = inr r →
       dom r = {[ KuzuQAChain.output_key self ]}).
Proof.
  split; [reflexivity |]. split; [reflexivity |].
  split; [intros H; unfold KuzuQAChain.input_keys; by rewrite H |].
  split; [intros H; unfold KuzuQAChain.output_keys; by rewrite H |].
  intros inputs w r.
  unfold KuzuQAChain._call, getitem.
  destruct (inputs !! _) as [q |]; [| discriminate].
  step. step.
  destruct (KuzuGraph.get_schema _ w) as [[e | s] w1]; [discriminate |].
  step.
  destruct (LLMChain.run _ _ w1) as [[e | cypher] w2]; [discriminate |].
  step. step. step.
  destruct (KuzuGraph.query _ cypher w2) as [[e | c] w3]; [discriminate |].
  step. step. step.
  destruct (LLMChain.call _ _ w3) as [[e | result] w4]; [discriminate |].
  step. destruct (result !! _) as [answer |]; [| discriminate].
  intros [= <-]. apply dom_singleton_L.
Qed.

End KuzuProperties.

(** The demo chain asked a question: the generation chain gets the question
    and the graph's schema. *)
Lemma C4_generation_inputs_witness :
  let self := Demo.qa "query" "result" (inr (VList [VStr "n1"])) in
  let inputs : gmap string Val := {[ "query" := VStr "Who?" ]} in
  inputs !! KuzuQAChain.input_key self = Some (VStr "Who?")
  ∧ KuzuGraph.get_schema (KuzuQAChain.graph self) ∅ = (inr "Node(id)", ∅)
  ∧ run_inputs (trace (snd (KuzuQAChain._call Demo.str self inputs (start ∅))))
    = [ {[ "question" := VStr "Who?"; "schema" := VStr "Node(id)" ]} ].
Proof.
  intros self inputs.
  assert (Hq : inputs !! KuzuQAChain.input_key self = Some (VStr "Who?"))
    by reflexivity.
  split; [exact Hq |]. split; [reflexivity |].
  apply (C4_generation_inputs Demo.str self inputs ∅ ∅ (VStr "Who?") "Node(id)"
           Hq eq_refl).
Defined.

(** The demo chain through to its answer: the answer chain gets the question
    and the rows, and the result holds the answer under the output key. *)
Lemma C5_synthesis_inputs_and_answer_witness :
  let rows := VList [VStr "n1"] in
  let self := Demo.qa "query" "result" (inr rows) in
  let inputs : gmap string Val := {[ "query" := VStr "Who?" ]} in
  inputs !! KuzuQAChain.input_key self = Some (VStr "Who?")
  ∧ KuzuGraph.query (KuzuQAChain.graph self) "MATCH (n) RETURN n" ∅
    = (inr rows, ∅)
  ∧ call_inputs (trace (snd (KuzuQAChain._call Demo.str self inputs (start ∅))))
    = [ {[ "question" := VStr "Who?"; "context" := rows ]} ]
  ∧ fst (KuzuQAChain._call Demo.str self inputs (start ∅))
    = inr {[ "result" := VStr "forty-two" ]}.
Proof.
  intros rows self inputs.
  assert (Hq : inputs !! KuzuQAChain.input_key self = Some (VStr "Who?"))
    by reflexivity.
  split; [exact Hq |]. split; [reflexivity |].
  destruct (C5_synthesis_inputs_and_answer Demo.str self inputs ∅ ∅ ∅ ∅
              (VStr "Who?") "Node(id)" "MATCH (n) RETURN n" rows
              Hq eq_refl eq_refl eq_refl) as (Hcall & _ & Hanswer).
  split; [exact Hcall |].
  apply (Hanswer {[ "text" := VStr "forty-two" ]} ∅ (VStr "forty-two") eq_refl).
  reflexivity.
Defined.

(** The demo graph rejects the query: the chain raises what the graph
    raised. *)
Lemma C6_query_error_propagates_witness :
  let e := Raised "RuntimeError" "Parser exception" in
  let self := Demo.qa "query" "result" (inl e) in
  let inputs : gmap string Val := {[ "query" := VStr "Who?" ]} in
  KuzuGraph.query (KuzuQAChain.graph self) "MATCH (n) RETURN n" ∅ = (inl e, ∅)
  ∧ fst (KuzuQAChain._call Demo.str self inputs (start ∅)) = inl e
  ∧ queries (trace (snd (KuzuQAChain._call Demo.str self inputs (start ∅))))
    = ["MATCH (n) RETURN n"].
Proof.
  intros e self inputs.
  assert (Hq : inputs !! KuzuQAChain.input_key self = Some (VStr "Who?"))
    by reflexivity.
  split; [reflexivity |].
  destruct (C6_query_error_propagates Demo.str self inputs ∅ ∅ ∅ ∅
              (VStr "Who?") "Node(id)" "MATCH (n) RETURN n" e
              Hq eq_refl eq_refl eq_refl) as (Hout & Hqueries & _ & _).
  split; [exact Hout | exact Hqueries].
Defined.

(** An instance that keeps the class defaults declares query and result. *)
Lemma C10_declared_keys_witness :
  let self := Demo.qa KuzuQAChain.default_input_key
                KuzuQAChain.default_output_key (inr (VStr "rows")) in
  KuzuQAChain.input_keys self = ["query"]
  ∧ KuzuQAChain.output_keys self = ["result"].
Proof.
  intros self.
  destruct (C10_declared_keys Demo.str self) as (_ & _ & Hin & Hout & _).
  split; [apply Hin | apply Hout]; reflexivity.
Defined.

(** C10 as it is worded does not hold: an instance constructed with the
    input key question and the output key answer declares those, and its
    successful invocation returns a mapping whose one key is answer; it has
    no key result. *)
Lemma C10_keys_follow_the_fields :
  let self := Demo.qa "question" "answer" (inr (VStr "rows")) in
  let inputs : gmap string Val := {[ "question" := VStr "Who?" ]} in
  KuzuQAChain.input_keys self ≠ ["query"]
  ∧ KuzuQAChain.output_keys self ≠ ["result"]
  ∧ ∃ r, fst (KuzuQAChain._call Demo.str self inputs (start ∅)) = inr r
         ∧ r !! "result" = None
         ∧ r !! "answer" = Some (VStr "forty-two").
Proof.
  intros self inputs.
  split; [discriminate |]. split; [discriminate |].
  assert (Hq : inputs !! KuzuQAChain.input_key self = Some (VStr "Who?"))
    by reflexivity.
  rewrite (KuzuQAChain_call_after_query Demo.str self inputs ∅ ∅ ∅ ∅
             (VStr "Who?") "Node(id)" "MATCH (n) RETURN n" (VStr "rows")
             Hq eq_refl eq_refl eq_refl).
  eexists. split; [reflexivity |]. split; reflexivity.
Qed.

(** ** The Kuzu QA chain: every way out *)

Section KuzuOutcomes.

Context {World : Type}.

Variable str : Val -> string.

(** Without the input key among the inputs the chain raises [KeyError] for
    that key before anything is asked of any collaborator. *)
Theorem KuzuQAChain_call_missing_input (self : KuzuQAChain.t World)
    (inputs : gmap string Val) (st : State World) :
  inputs !! KuzuQAChain.input_key self = None →
  KuzuQAChain._call str self inputs st
  = (inl (KeyError (KuzuQAChain.input_key self)), st).
Proof.
  intros H. unfold KuzuQAChain._call, getitem. rewrite H. reflexivity.
Qed.

(** Only the entry under the input key is read: two input mappings that
    agree on it give the same outcome, trace and world. *)
Theorem KuzuQAChain_call_other_inputs_ignored (self : KuzuQAChain.t World)
    (inputs inputs' : gmap string Val) (st : State World) :
  inputs !! KuzuQAChain.input_key self = inputs' !! KuzuQAChain.input_key self →
  KuzuQAChain._call str self inputs st = KuzuQAChain._call str self inputs' st.
Proof.
  intros H. unfold KuzuQAChain._call, getitem. rewrite H. reflexivity.
Qed.

(** When reading the schema raises, the chain raises that error; neither
    chain was used and the graph was not queried. *)
Theorem KuzuQAChain_call_schema_error (self : KuzuQAChain.t World)
    (inputs : gmap string Val) (w w1 : World) (q : Val) (e : Exn) :
  inputs !! KuzuQAChain.input_key self = Some q →
  KuzuGraph.get_schema (KuzuQAChain.graph self) w = (inl e, w1) →
  KuzuQAChain._call str self inputs (start w)
  = (inl e, {| world := w1; trace := [EvGetSchema] |}).
Proof.
  intros Hq Hs. unfold KuzuQAChain._call, getitem. rewrite Hq.
  step. step. rewrite Hs. reflexivity.
Qed.

(** When the query-generation chain raises, the chain raises that error:
    the graph was not queried, the answer chain was not called and the run
    manager was told nothing. *)
Theorem KuzuQAChain_call_generation_error (self : KuzuQAChain.t World)
    (inputs : gmap string Val) (w w1 w2 : World) (q : Val) (s : string)
    (e : Exn) :
  inputs !! KuzuQAChain.input_key self = Some q →
  KuzuGraph.get_schema (KuzuQAChain.graph self) w = (inr s, w1) →
  LLMChain.run (KuzuQAChain.cypher_generation_chain self)
    {[ "question" := q; "schema" := VStr s ]} w1 = (inl e, w2) →
  KuzuQAChain._call str self inputs (start w)
  = (inl e,
     {| world := w2;
        trace := [ EvGetSchema;
                   EvRun {[ "question" := q; "schema" := VStr s ]} ] |}).
Proof.
  intros Hq Hs Hrun. unfold KuzuQAChain._call, getitem. rewrite Hq.
  step. step. rewrite Hs. step. rewrite Hrun. reflexivity.
Qed.

(** When the answer chain raises, the chain raises that error, after the
    generated query was executed once and the run manager was told the
    query and the context. *)
Theorem KuzuQAChain_call_answer_error (self : KuzuQAChain.t World)
    (inputs : gmap string Val) (w w1 w2 w3 w4 : World) (q : Val)
    (s cypher : string) (c : Val) (e : Exn) :
  inputs !! KuzuQAChain.input_key self = Some q →
  KuzuGraph.get_schema (KuzuQAChain.graph self) w = (inr s, w1) →
  LLMChain.run (KuzuQAChain.cypher_generation_chain self)
    {[ "question" := q; "schema" := VStr s ]} w1 = (inr cypher, w2) →
  KuzuGraph.query (KuzuQAChain.graph self) cypher w2 = (inr c, w3) →
  LLMChain.call (KuzuQAChain.qa_chain self)
    {[ "question" := q; "context" := c ]} w3 = (inl e, w4) →
  KuzuQAChain._call str self inputs (start w)
  = (inl e,
     {| world := w4;
        trace := [ EvGetSchema;
                   EvRun {[ "question" := q; "schema" := VStr s ]};
                   EvOnText "Generated Cypher:"; EvOnText cypher;
                   EvQuery cypher;
                   EvOnText "Full Context:"; EvOnText (str c);
                   EvCall {[ "question" := q; "context" := c ]} ] |}).
Proof.
  intros Hq Hs Hrun Hquery Hcall.
  rewrite (KuzuQAChain_call_after_query str self inputs w w1 w2 w3 q s cypher c
             Hq Hs Hrun Hquery), Hcall.
  reflexivity.
Qed.

(** When what the answer chain returns has no entry under that chain's
    output key, the chain raises [KeyError] for that key. *)
Theorem KuzuQAChain_call_missing_output (self : KuzuQAChain.t World)
    (inputs : gmap string Val) (w w1 w2 w3 w4 : World) (q : Val)
    (s cypher : string) (c : Val) (result : gmap string Val) :
  inputs !! KuzuQAChain.input_key self = Some q →
  KuzuGraph.get_schema (KuzuQAChain.graph self) w = (inr s, w1) →
  LLMChain.run (KuzuQAChain.cypher_generation_chain self)
    {[ "question" := q; "schema" := VStr s ]} w1 = (inr cypher, w2) →
  KuzuGraph.query (KuzuQAChain.graph self) cypher w2 = (inr c, w3) →
  LLMChain.call (KuzuQAChain.qa_chain self)
    {[ "question" := q; "context" := c ]} w3 = (inr result, w4) →
  result !! LLMChain.output_key (KuzuQAChain.qa_chain self) = None →
  fst (KuzuQAChain._call str self inputs (start w))
  = inl (KeyError (LLMChain.output_key (KuzuQAChain.qa_chain self)))
  ∧ world (snd (KuzuQAChain._call str self inputs (start w))) = w4.
Proof.
  intros Hq Hs Hrun Hquery Hcall Hnone.
  rewrite (KuzuQAChain_call_after_query str self inputs w w1 w2 w3 q s cypher c
             Hq Hs Hrun Hquery), Hcall.
  simpl. rewrite Hnone. split; reflexivity.
Qed.

(** A successful run, start to end: the schema is read, the generation
    chain is run, the run manager is told the generated query, that very
    text is executed on the graph, the run manager is told the context as
    text, the answer chain is called; each collaborator acts on the world
    the one before it left, and the world at the end is the one the answer
    chain left. *)
Theorem KuzuQAChain_call_success (self : KuzuQAChain.t World)
    (inputs : gmap string Val) (w w1 w2 w3 w4 : World) (q : Val)
    (s cypher : string) (c : Val) (result : gmap string Val) (answer : Val) :
  inputs !! KuzuQAChain.input_key self = Some q →
  KuzuGraph.get_schema (KuzuQAChain.graph self) w = (inr s, w1) →
  LLMChain.run (KuzuQAChain.cypher_generation_chain self)
    {[ "question" := q; "schema" := VStr s ]} w1 = (inr cypher, w2) →
  KuzuGraph.query (KuzuQAChain.graph self) cypher w2 = (inr c, w3) →
  LLMChain.call (KuzuQAChain.qa_chain self)
    {[ "question" := q; "context" := c ]} w3 = (inr result, w4) →
  result !! LLMChain.output_key (KuzuQAChain.qa_chain self) = Some answer →
  KuzuQAChain._call str self inputs (start w)
  = (inr {[ KuzuQAChain.output_key self := answer ]},
     {| world := w4;
        trace := [ EvGetSchema;
                   EvRun {[ "question" := q; "schema" := VStr s ]};
                   EvOnText "Generated Cypher:"; EvOnText cypher;
                   EvQuery cypher;
                   EvOnText "Full Context:"; EvOnText (str c);
                   EvCall {[ "question" := q; "context" := c ]} ] |}).
Proof.
  intros Hq Hs Hrun Hquery Hcall Ha.
  rewrite (KuzuQAChain_call_after_query str self inputs w w1 w2 w3 q s cypher c
             Hq Hs Hrun Hquery), Hcall.
  simpl. rewrite Ha. reflexivity.
Qed.


End KuzuOutcomes.

Lemma KuzuQAChain_call_missing_input_witness :
  let self := Demo.qa "query" "result" (inr (VStr "rows")) in
  let inputs : gmap string Val := {[ "question" := VStr "Who?" ]} in
  inputs !! KuzuQAChain.input_key self = None
  ∧ KuzuQAChain._call Demo.str self inputs (start ∅)
    = (inl (KeyError "query"), start ∅).
Proof.
  intros self inputs.
  assert (H : inputs !! KuzuQAChain.input_key self = None) by reflexivity.
  split; [exact H |].
  apply (KuzuQAChain_call_missing_input Demo.str self inputs (start ∅) H).
Defined.

Lemma KuzuQAChain_call_other_inputs_ignored_witness :
  let self := Demo.qa "query" "result" (inr (VStr "rows")) in
  let inputs : gmap string Val := {[ "query" := VStr "Who?" ]} in
  let inputs' : gmap string Val :=
    {[ "query" := VStr "Who?"; "history" := VList [] ]} in
  inputs !! KuzuQAChain.input_key self = inputs' !! KuzuQAChain.input_key self
  ∧ KuzuQAChain._call Demo.str self inputs (start ∅)
    = KuzuQAChain._call Demo.str self inputs' (start ∅).
Proof.
  intros self inputs inputs'.
  assert (H : inputs !! KuzuQAChain.input_key self
              = inputs' !! KuzuQAChain.input_key self) by reflexivity.
  split; [exact H |].
  apply (KuzuQAChain_call_other_inputs_ignored Demo.str self inputs inputs'
           (start ∅) H).
Defined.

Lemma KuzuQAChain_call_schema_error_witness :
  let e := Raised "RuntimeError" "database is closed" in
  let self :=
    Demo.qa_of (Demo.graph_without_schema e) (Demo.chain "MATCH (n) RETURN n")
      (Demo.chain "forty-two") in
  let inputs : gmap string Val := {[ "query" := VStr "Who?" ]} in
  KuzuGraph.get_schema (KuzuQAChain.graph self) ∅ = (inl e, ∅)
  ∧ KuzuQAChain._call Demo.str self inputs (start ∅)
    = (inl e, {| world := ∅; trace := [EvGetSchema] |}).
Proof.
  intros e self inputs. split; [reflexivity |].
  apply (KuzuQAChain_call_schema_error Demo.str self inputs ∅ ∅ (VStr "Who?") e);
    reflexivity.
Defined.

Lemma KuzuQAChain_call_generation_error_witness :
  let e := Raised "RateLimitError" "slow down" in
  let self :=
    Demo.qa_of (Demo.graph "Node(id)" (inr (VStr "rows"))) (Demo.failing_chain e)
      (Demo.chain "forty-two") in
  let inputs : gmap string Val := {[ "query" := VStr "Who?" ]} in
  LLMChain.run (KuzuQAChain.cypher_generation_chain self)
    {[ "question" := VStr "Who?"; "schema" := VStr "Node(id)" ]} ∅ = (inl e, ∅)
  ∧ fst (KuzuQAChain._call Demo.str self inputs (start ∅)) = inl e
  ∧ queries (trace (snd (KuzuQAChain._call Demo.str self inputs (start ∅)))) = [].
Proof.
  intros e self inputs. split; [reflexivity |].
  rewrite (KuzuQAChain_call_generation_error Demo.str self inputs ∅ ∅ ∅
             (VStr "Who?") "Node(id)" e eq_refl eq_refl eq_refl).
  split; reflexivity.
Defined.

Lemma KuzuQAChain_call_answer_error_witness :
  let e := Raised "RateLimitError" "slow down" in
  let self :=
    Demo.qa_of (Demo.graph "Node(id)" (inr (VStr "rows")))
      (Demo.chain "MATCH (n) RETURN n") (Demo.failing_chain e) in
  let inputs : gmap string Val := {[ "query" := VStr "Who?" ]} in
  LLMChain.call (KuzuQAChain.qa_chain self)
    {[ "question" := VStr "Who?"; "context" := VStr "rows" ]} ∅ = (inl e, ∅)
  ∧ fst (KuzuQAChain._call Demo.str self inputs (start ∅)) = inl e
  ∧ queries (trace (snd (KuzuQAChain._call Demo.str self inputs (start ∅))))
    = ["MATCH (n) RETURN n"].
Proof.
  intros e self inputs. split; [reflexivity |].
  rewrite (KuzuQAChain_call_answer_error Demo.str self inputs ∅ ∅ ∅ ∅ ∅
             (VStr "Who?") "Node(id)" "MATCH (n) RETURN n" (VStr "rows") e
             eq_refl eq_refl eq_refl eq_refl eq_refl).
  split; reflexivity.
Defined.

Lemma KuzuQAChain_call_missing_output_witness :
  let self :=
    Demo.qa_of (Demo.graph "Node(id)" (inr (VStr "rows")))
      (Demo.chain "MATCH (n) RETURN n") (Demo.misnamed_chain "forty-two") in
  let inputs : gmap string Val := {[ "query" := VStr "Who?" ]} in
  ({[ "output" := VStr "forty-two" ]} : gmap string Val)
    !! LLMChain.output_key (KuzuQAChain.qa_chain self) = None
  ∧ fst (KuzuQAChain._call Demo.str self inputs (start ∅))
    = inl (KeyError "text").
Proof.
  intros self inputs. split; [reflexivity |].
  apply (KuzuQAChain_call_missing_output Demo.str self inputs ∅ ∅ ∅ ∅ ∅
           (VStr "Who?") "Node(id)" "MATCH (n) RETURN n" (VStr "rows")
           {[ "output" := VStr "forty-two" ]}
           eq_refl eq_refl eq_refl eq_refl eq_refl eq_refl).
Defined.

Lemma KuzuQAChain_call_success_witness :
  let self := Demo.qa "query" "result" (inr (VStr "rows")) in
  let inputs : gmap string Val := {[ "query" := VStr "Who?" ]} in
  KuzuGraph.query (KuzuQAChain.graph self) "MATCH (n) RETURN n" ∅
  = (inr (VStr "rows"), ∅)
  ∧ KuzuQAChain._call Demo.str self inputs (start ∅)
    = (inr {[ "result" := VStr "forty-two" ]},
       {| world := ∅;
          trace := [ EvGetSchema;
                     EvRun {[ "question" := VStr "Who?";
                              "schema" := VStr "Node(id)" ]};
                     EvOnText "Generated Cypher:";
                     EvOnText "MATCH (n) RETURN n";
                     EvQuery "MATCH (n) RETURN n";
                     EvOnText "Full Context:"; EvOnText "rows";
                     EvCall {[ "question" := VStr "Who?";
                               "context" := VStr "rows" ]} ] |}).
Proof.
  intros self inputs. split; [reflexivity |].
  apply (KuzuQAChain_call_success Demo.str self inputs ∅ ∅ ∅ ∅ ∅
           (VStr "Who?") "Node(id)" "MATCH (n) RETURN n" (VStr "rows")
           {[ "text" := VStr "forty-two" ]} (VStr "forty-two")
           eq_refl eq_refl eq_refl eq_refl eq_refl eq_refl).
Defined.

(** ** The Writer wrapper: the request *)

Section WriterRequest.

Context {World : Type}.

Variable requests_post :
  string -> gmap string string -> gmap string Val -> Op World Writer.Response.

(** Whatever the transport does, [_call] posts exactly once and does nothing
    else: no retry after an error.  The request carries exactly three
    headers, the API key as it is under Authorization, and the world after
    the call is the world the transport left. *)
Theorem Writer_call_posts_once (self : Writer.t) (prompt : string)
    (stop : option (list string)) (kwargs : gmap string Val) (st : State World) :
  let headers : gmap string string :=
    {[ "Authorization" := format_opt_str (Writer.writer_api_key self);
       "Content-Type" := "application/json";
       "Accept" := "application/json" ]} in
  ∃ url json,
    trace (snd (Writer._call requests_post self prompt stop kwargs st))
    = trace st ++ [EvPost url headers json]
    ∧ world (snd (Writer._call requests_post self prompt stop kwargs st))
      = snd (requests_post url headers json (world st))
    ∧ dom headers = {[ "Authorization"; "Content-Type"; "Accept" ]}
    ∧ headers !! "Authorization"
      = Some (format_opt_str (Writer.writer_api_key self)).
Proof.
  intros headers.
  destruct (Writer_call_unfold requests_post self prompt stop kwargs st)
    as (url & headers' & json & _ & -> & _ & ->).
  exists url, json. split; [reflexivity |]. split; [reflexivity |].
  split; [| reflexivity].
  unfold headers. rewrite !dom_insert_L, dom_singleton_L. reflexivity.
Qed.



End WriterRequest.

(** The identifying parameters are the default parameters, every one of
    them unchanged, together with the model id and the organization id:
    twelve keys in all. *)
Theorem Writer_identifying_params (self : Writer.t) :
  Writer._default_params self ⊆ Writer._identifying_params self
  ∧ Writer._identifying_params self !! "model_id"
    = Some (VStr (Writer.model_id self))
  ∧ Writer._identifying_params self !! "writer_org_id"
    = Some (opt VStr (Writer.writer_org_id self))
  ∧ dom (Writer._identifying_params self)
    = {[ "minTokens"; "maxTokens"; "temperature"; "topP"; "stop";
         "presencePenalty"; "repetitionPenalty"; "bestOf"; "logprobs"; "n" ]}
      ∪ {[ "model_id"; "writer_org_id" ]}.
Proof.
  unfold Writer._identifying_params. split; [| split; [| split]].
  - apply map_union_subseteq_l.
  - reflexivity.
  - reflexivity.
  - rewrite dom_union_L. unfold Writer._default_params.
    rewrite !dom_insert_L, !dom_singleton_L. reflexivity.
Qed.

(** ** Constructing a Writer: what a successful construction gives *)

Lemma validate_field_errors (input : gmap string Val)
    (acc : gmap string Val * list ErrorWrapper) (f : Writer.Field) :
  ∃ more, (Writer.validate_field input acc f).2 = acc.2 ++ more.
Proof.
  destruct acc as [values errors]. unfold Writer.validate_field.
  destruct (input !! Writer.name f) as [v |]; simpl.
  - destruct (Writer.validate f v); simpl; [| eauto].
    exists []. by rewrite app_nil_r.
  - exists []. by rewrite app_nil_r.
Qed.

(** Errors are only ever added: no error at the end, none on the way. *)
Lemma validate_fields_errors_nil (input : gmap string Val)
    (fs : list Writer.Field) (acc : gmap string Val * list ErrorWrapper) :
  (foldl (Writer.validate_field input) acc fs).2 = [] → acc.2 = [].
Proof.
  revert acc. induction fs as [| f fs IH]; intros acc H; simpl in H.
  - exact H.
  - apply IH in H. destruct (validate_field_errors input acc f) as [more Hm].
    rewrite Hm in H. by apply app_eq_nil in H as [-> _].
Qed.

Lemma validate_field_valid (input : gmap string Val)
    (acc : gmap string Val * list ErrorWrapper) (f : Writer.Field) :
  (Writer.validate_field input acc f).2 = [] →
  (input !! Writer.name f = None
   ∧ (Writer.validate_field input acc f).1 !! Writer.name f
     = Some (Writer.default f))
  ∨ (∃ v v', input !! Writer.name f = Some v
             ∧ Writer.validate f v = Some v'
             ∧ (Writer.validate_field input acc f).1 !! Writer.name f = Some v').
Proof.
  destruct acc as [values errors]. unfold Writer.validate_field.
  destruct (input !! Writer.name f) as [v |]; simpl.
  - destruct (Writer.validate f v) as [v' |] eqn:E; simpl.
    + intros _. right. exists v, v'. by rewrite lookup_insert_eq.
    + intros H. apply app_eq_nil in H as [_ H]. discriminate.
  - intros _. left. by rewrite lookup_insert_eq.
Qed.

(** When the loop over the fields ends without an error, the value of an
    own field is its default if it was not supplied and what its validator
    made of the supplied value otherwise. *)
Lemma own_field_valid (input : gmap string Val)
    (acc : gmap string Val * list ErrorWrapper) (i : nat) (f : Writer.Field) :
  Writer.own_fields !! i = Some f →
  Forall (λ g, Writer.name g ≠ Writer.name f) (drop (S i) Writer.own_fields) →
  (foldl (Writer.validate_field input) acc Writer.own_fields).2 = [] →
  (input !! Writer.name f = None
   ∧ (foldl (Writer.validate_field input) acc Writer.own_fields).1
       !! Writer.name f = Some (Writer.default f))
  ∨ (∃ v v', input !! Writer.name f = Some v
             ∧ Writer.validate f v = Some v'
             ∧ (foldl (Writer.validate_field input) acc Writer.own_fields).1
                 !! Writer.name f = Some v').
Proof.
  intros Hi Hpost. rewrite <- (take_drop_middle _ _ _ Hi).
  rewrite foldl_app. simpl. intros Herr.
  rewrite validate_fields_other by exact Hpost.
  apply validate_fields_errors_nil in Herr.
  by apply validate_field_valid.
Qed.

Lemma get_from_dict_or_env_returns (environ : gmap string string)
    (data : gmap string Val) (key env_key : string) (a : Val) :
  Writer.get_from_dict_or_env environ data key env_key = inr a →
  a ≠ VNone
  ∧ (data !! key = Some a
     ∨ ((data !! key = None ∨ data !! key = Some VNone)
        ∧ ∃ s, environ !! env_key = Some s ∧ a = VStr s)).
Proof.
  unfold Writer.get_from_dict_or_env.
  destruct (data !! key) as [v |] eqn:Ed.
  - destruct v; try (intros [= <-]; split; [discriminate | by left]).
    destruct (environ !! env_key) as [s |]; [| discriminate].
    intros [= <-]. split; [discriminate |]. right. split; [by right | eauto].
  - destruct (environ !! env_key) as [s |]; [| discriminate].
    intros [= <-]. split; [discriminate |]. right. split; [by left | eauto].
Qed.

(** When the root validator returns, both credentials are in the values it
    returns and neither is [None]; every other entry is as it was given. *)
Theorem validate_environment_returns (environ : gmap string string)
    (values values' : gmap string Val) :
  Writer.validate_environment environ values = inr values' →
  (∃ key org,
      values' !! "writer_api_key" = Some key ∧ key ≠ VNone
      ∧ values' !! "writer_org_id" = Some org ∧ org ≠ VNone)
  ∧ (∀ k, k ≠ "writer_api_key" → k ≠ "writer_org_id" →
          values' !! k = values !! k)
  ∧ dom values' = {[ "writer_api_key"; "writer_org_id" ]} ∪ dom values.
Proof.
  unfold Writer.validate_environment.
  destruct (Writer.get_from_dict_or_env environ values _ _)
    as [e | key] eqn:Ek; [discriminate |].
  destruct (Writer.get_from_dict_or_env environ _ "writer_org_id" _)
    as [e | org] eqn:Eo; [discriminate |].
  intros [= <-].
  apply get_from_dict_or_env_returns in Ek as [Hk _].
  apply get_from_dict_or_env_returns in Eo as [Ho _].
  split; [| split].
  - exists key, org. rewrite lookup_insert_ne by discriminate.
    by rewrite !lookup_insert_eq.
  - intros k H1 H2. by rewrite !lookup_insert_ne.
  - rewrite !dom_insert_L, (assoc_L (∪)).
    by rewrite (comm_L (∪) {[ "writer_org_id" ]}).
Qed.

Lemma optional_str_validator_inv (v v' : Val) :
  Writer.optional Writer.str_validator v = Some v' →
  v' = v ∧ (v = VNone ∨ ∃ s, v = VStr s).
Proof.
  destruct v; simpl; intros [= <-]; split; eauto.
Qed.

Lemma validate_environment_resolves (environ : gmap string string)
    (values values' : gmap string Val) :
  Writer.validate_environment environ values = inr values' →
  ∃ key org,
    values' !! "writer_api_key" = Some key
    ∧ values' !! "writer_org_id" = Some org
    ∧ Writer.get_from_dict_or_env environ values
        "writer_api_key" "WRITER_API_KEY" = inr key
    ∧ Writer.get_from_dict_or_env environ values
        "writer_org_id" "WRITER_ORG_ID" = inr org.
Proof.
  unfold Writer.validate_environment.
  destruct (Writer.get_from_dict_or_env environ values _ _)
    as [e | key] eqn:Ek; [discriminate |].
  destruct (Writer.get_from_dict_or_env environ _ "writer_org_id" _)
    as [e | org] eqn:Eo; [discriminate |].
  intros [= <-]. exists key, org.
  rewrite lookup_insert_ne by discriminate. rewrite !lookup_insert_eq.
  repeat split; try done.
  unfold Writer.get_from_dict_or_env in Eo |- *.
  by rewrite lookup_insert_ne in Eo by discriminate.
Qed.


Section ConstructionSuccess.

Context {World : Type}.

Variable os_environ : World -> gmap string string.

Variable base_fields : list Writer.Field.

(** What a successful construction went through. *)
Lemma init_success_inv (kwargs : gmap string Val) (st st' : State World)
    (self : Writer.t) :
  Writer.init os_environ base_fields kwargs st = (inr self, st') →
  st' = st
  ∧ ∃ values values',
      Writer.validate_fields (Writer.fields base_fields) kwargs = (values, [])
      ∧ Writer.extra_names (Writer.fields base_fields) kwargs = []
      ∧ Writer.validate_environment (os_environ (world st)) values = inr values'
      ∧ self = Writer.of_values values'.
Proof.
  unfold Writer.init, Writer.validate_model.
  destruct (Writer.validate_fields _ kwargs) as [values errors].
  destruct (Writer.validate_environment _ values) as [e | values'] eqn:E.
  { destruct e; intros [=]. }
  destruct (errors ++ _) as [| e0 rest] eqn:Eerr; [| intros [=]].
  intros [= <- <-]. split; [reflexivity |].
  apply app_eq_nil in Eerr as [-> Hextra].
  exists values, values'. repeat split; try done.
  unfold Writer.extra_errors, Writer.Config_extra in Hextra.
  by apply map_eq_nil in Hextra.
Qed.

Lemma fields_values_own (kwargs values : gmap string Val) (i : nat)
    (f : Writer.Field) :
  Writer.validate_fields (Writer.fields base_fields) kwargs = (values, []) →
  Writer.own_fields !! i = Some f →
  Forall (λ g, Writer.name g ≠ Writer.name f) (drop (S i) Writer.own_fields) →
  (kwargs !! Writer.name f = None
   ∧ values !! Writer.name f = Some (Writer.default f))
  ∨ (∃ v v', kwargs !! Writer.name f = Some v
             ∧ Writer.validate f v = Some v'
             ∧ values !! Writer.name f = Some v').
Proof.
  unfold Writer.validate_fields, Writer.fields. rewrite foldl_app.
  intros H Hi Hpost.
  pose proof (own_field_valid kwargs (foldl (Writer.validate_field kwargs)
                                        (∅, []) base_fields) i f Hi Hpost) as Hf.
  rewrite H in Hf. by apply Hf.
Qed.

Lemma own_credential (kwargs values : gmap string Val) (i : nat) (nm : string) :
  Writer.validate_fields (Writer.fields base_fields) kwargs = (values, []) →
  Writer.own_fields !! i
  = Some {| Writer.name := nm;
            Writer.validate := Writer.optional Writer.str_validator;
            Writer.default := VNone |} →
  Forall (λ g, Writer.name g ≠ nm) (drop (S i) Writer.own_fields) →
  (values !! nm = Some VNone ∧ (kwargs !! nm = None ∨ kwargs !! nm = Some VNone))
  ∨ (∃ s, values !! nm = Some (VStr s) ∧ kwargs !! nm = Some (VStr s)).
Proof.
  intros Hv Hi Hpost.
  destruct (fields_values_own kwargs values i _ Hv Hi Hpost)
    as [[Hk Hval] | (v & v' & Hk & Hvalid & Hval)]; simpl in *.
  - left. auto.
  - apply optional_str_validator_inv in Hvalid as [-> [-> | [s ->]]].
    + left. auto.
    + right. eauto.
Qed.

(** A credential, once resolved, is a string: the one given as argument,
    or the one in the environment when the argument is absent or [None]. *)
Lemma resolved_credential (environ : gmap string string)
    (kwargs values : gmap string Val) (i : nat) (nm env_key : string) (a : Val) :
  Writer.validate_fields (Writer.fields base_fields) kwargs = (values, []) →
  Writer.own_fields !! i
  = Some {| Writer.name := nm;
            Writer.validate := Writer.optional Writer.str_validator;
            Writer.default := VNone |} →
  Forall (λ g, Writer.name g ≠ nm) (drop (S i) Writer.own_fields) →
  Writer.get_from_dict_or_env environ values nm env_key = inr a →
  ∃ s, a = VStr s
       ∧ (kwargs !! nm = Some (VStr s)
          ∨ ((kwargs !! nm = None ∨ kwargs !! nm = Some VNone)
             ∧ environ !! env_key = Some s)).
Proof.
  intros Hv Hi Hpost Hget.
  apply get_from_dict_or_env_returns in Hget as [Hnone Hsrc].
  destruct (own_credential kwargs values i nm Hv Hi Hpost)
    as [[Hval Hk] | (s & Hval & Hk)].
  - destruct Hsrc as [Hd | [_ (s & He & ->)]]; [congruence |].
    exists s. split; [reflexivity |]. right. auto.
  - destruct Hsrc as [Hd | [[Hd | Hd] _]]; try congruence.
    exists s. split; [congruence |]. by left.
Qed.



(** A construction that succeeds leaves the world and the trace as they
    were, was given no name that is not a declared field, and yields an
    adapter whose API key and organization id are both set. *)
Theorem Writer_init_success (kwargs : gmap string Val) (st st' : State World)
    (self : Writer.t) :
  Writer.init os_environ base_fields kwargs st = (inr self, st') →
  st' = st
  ∧ (∃ key org, Writer.writer_api_key self = Some key
                ∧ Writer.writer_org_id self = Some org)
  ∧ (∀ k, is_Some (kwargs !! k) →
          k ∈ map Writer.name (Writer.fields base_fields)).
Proof.
  intros H.
  apply init_success_inv in H as (-> & values & values' & Hv & Hextra & Henv & ->).
  split; [reflexivity |]. split.
  - apply validate_environment_resolves in Henv
      as (key & org & Hkey & Horg & Hgk & Hgo).
    destruct (resolved_credential _ kwargs values 12 _ _ key Hv eq_refl
                ltac:(repeat constructor; discriminate) Hgk) as (sk & -> & _).
    destruct (resolved_credential _ kwargs values 0 _ _ org Hv eq_refl
                ltac:(repeat constructor; discriminate) Hgo) as (so & -> & _).
    exists sk, so. simpl. unfold Writer.get_str. by rewrite Hkey, Horg.
  - intros k Hk.
    destruct (decide (k ∈ map Writer.name (Writer.fields base_fields)))
      as [Hin | Hnot]; [exact Hin |].
    assert (k ∈ Writer.extra_names (Writer.fields base_fields) kwargs)
      by (by apply elem_of_extra_names).
    rewrite Hextra in H. by apply elem_of_nil in H.
Qed.




End ConstructionSuccess.

(** The demo construction succeeds. *)
Lemma Demo_init :
  Writer.init Demo.os_environ Demo.base_fields Demo.kwargs (start Demo.environ)
  = (inr Demo.constructed, start Demo.environ).
Proof. vm_compute. reflexivity. Qed.

Lemma validate_environment_returns_witness :
  let values : gmap string Val :=
    {[ "writer_api_key" := VStr "k"; "model_id" := VStr "palmyra-base" ]} in
  let values' := <[ "writer_org_id" := VStr "o" ]> values in
  Writer.validate_environment Demo.environ values = inr values'
  ∧ values' !! "model_id" = values !! "model_id"
  ∧ dom values' = {[ "writer_api_key"; "writer_org_id" ]} ∪ dom values.
Proof.
  intros values values'.
  assert (H : Writer.validate_environment Demo.environ values = inr values')
    by (vm_compute; reflexivity).
  split; [exact H |].
  destruct (validate_environment_returns Demo.environ values values' H)
    as (_ & Hframe & Hdom).
  split; [apply Hframe; discriminate | exact Hdom].
Defined.

Lemma Writer_init_success_witness :
  Writer.init Demo.os_environ Demo.base_fields Demo.kwargs (start Demo.environ)
  = (inr Demo.constructed, start Demo.environ)
  ∧ (∃ key org, Writer.writer_api_key Demo.constructed = Some key
                ∧ Writer.writer_org_id Demo.constructed = Some org).
Proof.
  split; [exact Demo_init |].
  apply (Writer_init_success Demo.os_environ Demo.base_fields Demo.kwargs
           (start Demo.environ) (start Demo.environ) Demo.constructed Demo_init).
Defined.



